(** * Command logic node of Teleop_MIRO (miro_teleop/src/command_logic.cpp)

    A shallow embedding of the command sequencer: the subscriber callbacks,
    the start-up code of [main], one turn of its loop with the "look"
    pipeline, and the loop itself.

    - A C++ [double] is an IEEE 754 binary64 number, taken from the
      Standard Library's [SpecFloat] ([prec = 53], [emax = 1024]).
    - The ROS services are the environment: each call is answered by a
      function from the request to [Some response], or [None] when
      [ServiceClient::call] returns false.
    - Everything the node does to the outside (service calls, publishes) is
      appended to a trace of events; assignments to the local [state] are
      recorded there too, so that the history of the pipeline state can be
      stated.
    - [atan2], [sin] and [cos] come from the platform's libm; the model
      takes them as a parameter for ordinary arguments, of which a
      statement may assume what the C standard fixes ([conforming]). *)

From Stdlib Require Import ZArith List Bool Lia QArith Qpower Qreals Reals Lra Lqa.
From Stdlib Require Import Floats.SpecFloat.
Import ListNotations.

Local Open Scope Z_scope.

(** ** Doubles *)

Module Double.

Definition double := spec_float.

Definition prec : Z := 53.
Definition emax : Z := 1024.

Definition NaN : double := S754_nan.
Definition zero : double := S754_zero false.

(** Conversion of a C++ [int] used in a [double] expression. *)
Definition of_int (n : Z) : double := binary_normalize prec emax n 0 false.

Definition mul : double -> double -> double := SFmul prec emax.
Definition sub : double -> double -> double := SFsub prec emax.

(** [a < b] and [a > b] on doubles: false as soon as one side is NaN. *)
Definition lt (a b : double) : bool := SFltb a b.
Definition gt (a b : double) : bool := SFltb b a.

(** [std::isfinite]. *)
Definition isfinite (a : double) : bool :=
  match a with
  | S754_zero _ | S754_finite _ _ _ => true
  | S754_infinity _ | S754_nan => false
  end.

Definition is_nan (a : double) : bool :=
  match a with
  | S754_nan => true
  | _ => false
  end.

(** The exponent of the subnormal doubles, [3 - emax - prec]. *)
Definition emin64 : Z := -1074.

(** The doubles of the machine: canonical mantissa, exponent in range. *)
Definition wf (a : double) : Prop := valid_binary prec emax a = true.

(** The rational a finite double stands for (0 for the others). *)
Definition to_Q (a : double) : Q :=
  match a with
  | S754_finite s m e => (inject_Z (cond_Zopp s (Zpos m)) * 2 ^ e)%Q
  | _ => 0%Q
  end.

End Double.

Import Double.

(** ** The platform's libm

  [atan2], [sin] and [cos] are not code of the node. Every IEEE 754
  libm returns NaN for a NaN argument (C11, annex F.10); the results for
  the other arguments are those of the platform, taken as [Libm]. *)

Record Libm := {
  libm_atan2 : double -> double -> double;
  libm_sin : double -> double;
  libm_cos : double -> double
}.

Module Cmath.

Definition atan2 (L : Libm) (a b : double) : double :=
  if is_nan a || is_nan b then NaN else libm_atan2 L a b.

Definition sin (L : Libm) (a : double) : double :=
  if is_nan a then NaN else libm_sin L a.

Definition cos (L : Libm) (a : double) : double :=
  if is_nan a then NaN else libm_cos L a.

End Cmath.

(** ** Constants ([#define]s of the source) *)

Definition RES : nat := 40.
Definition NZ : nat := 5.
Definition HSIZE : Z := 400.
Definition VSIZE : Z := 400.

(** ** Message types *)

(** geometry_msgs/Pose2D *)
Record Pose2D := { x : double; y : double; theta : double }.

(** geometry_msgs/Point and geometry_msgs/Quaternion, inside geometry_msgs/Pose *)
Record Point := { point_x : double; point_y : double; point_z : double }.
Record Quaternion :=
  { quat_x : double; quat_y : double; quat_z : double; quat_w : double }.
Record Pose := { position : Point; orientation : Quaternion }.

(** geometry_msgs/Vector3 *)
Record Vector3 := { vec_x : double; vec_y : double; vec_z : double }.

(** rrtstar_msgs/Region *)
Record Region := {
  center_x : double; center_y : double; center_z : double;
  size_x : double; size_y : double; size_z : double
}.

(** The request part of rrtstar_msgs/rrtStarSRV. *)
Record RrtRequest := {
  WS : Region;
  Obstacles : list Region;
  Goal : Region;
  Init : Vector3
}.

(** What the subscriptions deliver: one constructor per topic. For
    "Gesture/pose" the [pose] member of the PoseStamped is kept. *)
Inductive msg :=
| MCommand (data : Z)
| MRobot (groundpose : Pose2D)
| MGesture (pose : Pose)
| MObstacle (groundpose : Pose2D).

(** ** The store: the globals of the file and the locals of [main] *)

Record Store := {
  cmd : Z;
  obs : Pose2D;
  robot : Pose2D;
  gesture : Pose;
  target : Pose2D;
  goal : Pose2D;
  rrtPath : list Vector3;
  matrices : list double;
  landscape : list double;
  enable : bool;
  cmd_turn : double;
  srv_rrts_request : RrtRequest;
  state : Z
}.

Definition set_cmd (v : Z) (s : Store) : Store :=
  {| cmd := v; obs := obs s; robot := robot s; gesture := gesture s;
     target := target s; goal := goal s; rrtPath := rrtPath s;
     matrices := matrices s; landscape := landscape s; enable := enable s;
     cmd_turn := cmd_turn s; srv_rrts_request := srv_rrts_request s;
     state := state s |}.

Definition set_obs (v : Pose2D) (s : Store) : Store :=
  {| cmd := cmd s; obs := v; robot := robot s; gesture := gesture s;
     target := target s; goal := goal s; rrtPath := rrtPath s;
     matrices := matrices s; landscape := landscape s; enable := enable s;
     cmd_turn := cmd_turn s; srv_rrts_request := srv_rrts_request s;
     state := state s |}.

Definition set_robot (v : Pose2D) (s : Store) : Store :=
  {| cmd := cmd s; obs := obs s; robot := v; gesture := gesture s;
     target := target s; goal := goal s; rrtPath := rrtPath s;
     matrices := matrices s; landscape := landscape s; enable := enable s;
     cmd_turn := cmd_turn s; srv_rrts_request := srv_rrts_request s;
     state := state s |}.

Definition set_gesture (v : Pose) (s : Store) : Store :=
  {| cmd := cmd s; obs := obs s; robot := robot s; gesture := v;
     target := target s; goal := goal s; rrtPath := rrtPath s;
     matrices := matrices s; landscape := landscape s; enable := enable s;
     cmd_turn := cmd_turn s; srv_rrts_request := srv_rrts_request s;
     state := state s |}.

Definition set_target (v : Pose2D) (s : Store) : Store :=
  {| cmd := cmd s; obs := obs s; robot := robot s; gesture := gesture s;
     target := v; goal := goal s; rrtPath := rrtPath s;
     matrices := matrices s; landscape := landscape s; enable := enable s;
     cmd_turn := cmd_turn s; srv_rrts_request := srv_rrts_request s;
     state := state s |}.

Definition set_goal (v : Pose2D) (s : Store) : Store :=
  {| cmd := cmd s; obs := obs s; robot := robot s; gesture := gesture s;
     target := target s; goal := v; rrtPath := rrtPath s;
     matrices := matrices s; landscape := landscape s; enable := enable s;
     cmd_turn := cmd_turn s; srv_rrts_request := srv_rrts_request s;
     state := state s |}.

Definition set_rrtPath (v : list Vector3) (s : Store) : Store :=
  {| cmd := cmd s; obs := obs s; robot := robot s; gesture := gesture s;
     target := target s; goal := goal s; rrtPath := v;
     matrices := matrices s; landscape := landscape s; enable := enable s;
     cmd_turn := cmd_turn s; srv_rrts_request := srv_rrts_request s;
     state := state s |}.

Definition set_matrices (v : list double) (s : Store) : Store :=
  {| cmd := cmd s; obs := obs s; robot := robot s; gesture := gesture s;
     target := target s; goal := goal s; rrtPath := rrtPath s;
     matrices := v; landscape := landscape s; enable := enable s;
     cmd_turn := cmd_turn s; srv_rrts_request := srv_rrts_request s;
     state := state s |}.

Definition set_landscape (v : list double) (s : Store) : Store :=
  {| cmd := cmd s; obs := obs s; robot := robot s; gesture := gesture s;
     target := target s; goal := goal s; rrtPath := rrtPath s;
     matrices := matrices s; landscape := v; enable := enable s;
     cmd_turn := cmd_turn s; srv_rrts_request := srv_rrts_request s;
     state := state s |}.

Definition set_enable (v : bool) (s : Store) : Store :=
  {| cmd := cmd s; obs := obs s; robot := robot s; gesture := gesture s;
     target := target s; goal := goal s; rrtPath := rrtPath s;
     matrices := matrices s; landscape := landscape s; enable := v;
     cmd_turn := cmd_turn s; srv_rrts_request := srv_rrts_request s;
     state := state s |}.

Definition set_cmd_turn (v : double) (s : Store) : Store :=
  {| cmd := cmd s; obs := obs s; robot := robot s; gesture := gesture s;
     target := target s; goal := goal s; rrtPath := rrtPath s;
     matrices := matrices s; landscape := landscape s; enable := enable s;
     cmd_turn := v; srv_rrts_request := srv_rrts_request s;
     state := state s |}.

Definition set_srv_rrts_request (v : RrtRequest) (s : Store) : Store :=
  {| cmd := cmd s; obs := obs s; robot := robot s; gesture := gesture s;
     target := target s; goal := goal s; rrtPath := rrtPath s;
     matrices := matrices s; landscape := landscape s; enable := enable s;
     cmd_turn := cmd_turn s; srv_rrts_request := v;
     state := state s |}.

Definition set_state (v : Z) (s : Store) : Store :=
  {| cmd := cmd s; obs := obs s; robot := robot s; gesture := gesture s;
     target := target s; goal := goal s; rrtPath := rrtPath s;
     matrices := matrices s; landscape := landscape s; enable := enable s;
     cmd_turn := cmd_turn s; srv_rrts_request := srv_rrts_request s;
     state := v |}.

(** ** The environment and the trace *)

(** The answers of the four services called in the loop: [None] is a call
    that returns false. *)
Record Services := {
  cli_gest : Pose -> option Pose2D;
  cli_pert : Pose2D -> list double -> option (list double);
  cli_mont : Pose2D -> list double -> option Pose2D;
  cli_rrts : RrtRequest -> option (list Vector3)
}.

(** The answer of the spatial reasoner, called once at start-up. *)
Definition SpatialReasoner := Pose2D -> list double -> option (list double).

Inductive event :=
| CallSpat (center : Pose2D) (dimensions : list double) (ok : bool)
| CallGest (g : Pose) (ok : bool)
| CallPert (tgt : Pose2D) (mats : list double) (ok : bool)
| CallMont (P : Pose2D) (land : list double) (ok : bool)
| CallRrts (req : RrtRequest) (ok : bool)
| PubPath (path : list Vector3)
| PubEnable (flag : bool)
| PubTurn (body_move_theta : double)
| SetState (n : Z).

Definition trace := list event.

(** A service call that returned false. *)
Definition failed_call (e : event) : bool :=
  match e with
  | CallSpat _ _ ok | CallGest _ ok | CallPert _ _ ok
  | CallMont _ _ ok | CallRrts _ ok => negb ok
  | _ => false
  end.

Definition is_publish (e : event) : bool :=
  match e with
  | PubPath _ | PubEnable _ | PubTurn _ => true
  | _ => false
  end.

(** The successive values assigned to [state]. *)
Fixpoint state_history (t : trace) : list Z :=
  match t with
  | [] => []
  | SetState n :: t' => n :: state_history t'
  | _ :: t' => state_history t'
  end.

(** The requests sent to the RRT* planner, in order. *)
Fixpoint rrts_requests (t : trace) : list RrtRequest :=
  match t with
  | [] => []
  | CallRrts req _ :: t' => req :: rrts_requests t'
  | _ :: t' => rrts_requests t'
  end.

(** ** A state monad with process exit *)

Inductive outcome (A : Type) :=
| Ret (a : A) (s : Store) (t : trace)
| Exit (code : Z) (s : Store) (t : trace).

Arguments Ret {A} a s t.
Arguments Exit {A} code s t.

Definition M (A : Type) := Store -> trace -> outcome A.

Definition ret {A} (a : A) : M A := fun s t => Ret a s t.

Definition bind {A B} (m : M A) (f : A -> M B) : M B :=
  fun s t =>
    match m s t with
    | Ret a s' t' => f a s' t'
    | Exit c s' t' => Exit c s' t'
    end.

Declare Scope prog_scope.
Delimit Scope prog_scope with prog.
Notation "v <- m ;; k" := (bind m (fun v => k))
  (at level 61, m at next level, right associativity) : prog_scope.
Notation "m ;; k" := (bind m (fun _ => k))
  (at level 61, right associativity) : prog_scope.
Local Open Scope prog_scope.

Definition get : M Store := fun s t => Ret s s t.
Definition modify (f : Store -> Store) : M unit := fun s t => Ret tt (f s) t.
Definition emit (e : event) : M unit := fun s t => Ret tt s (t ++ [e]).

(** [return code;] in [main]. *)
Definition exit {A} (code : Z) : M A := fun s t => Exit code s t.

(** [if (c) { body }] *)
Definition when (c : bool) (body : M unit) : M unit :=
  if c then body else ret tt.

(** [state = n;] *)
Definition assign_state (n : Z) : M unit :=
  modify (set_state n) ;; emit (SetState n).

(** [cli.call(srv)]: the answer of the service, with the call traced. *)
Definition call {A} (ev : bool -> event) (answer : option A) : M (option A) :=
  match answer with
  | Some r => emit (ev true) ;; ret (Some r)
  | None => emit (ev false) ;; ret None
  end.

(** ** Subscriber callbacks *)

Definition d100 : double := of_int 100.

Definition getCmd (data : Z) (s : Store) : Store := set_cmd data s.

Definition getRobotPose (groundpose : Pose2D) (s : Store) : Store :=
  set_robot {| x := mul d100 (x groundpose);
               y := mul d100 (y groundpose);
               theta := theta groundpose |} s.

Definition getGesture (pose : Pose) (s : Store) : Store :=
  set_gesture
    {| orientation := orientation pose;
       position := {| point_x := mul d100 (point_x (position pose));
                      point_y := mul d100 (point_y (position pose));
                      point_z := mul d100 (point_z (position pose)) |} |} s.

Definition getObstaclePose (groundpose : Pose2D) (s : Store) : Store :=
  set_obs {| x := mul d100 (x groundpose);
             y := mul d100 (y groundpose);
             theta := theta groundpose |} s.

Definition deliver (m : msg) (s : Store) : Store :=
  match m with
  | MCommand data => getCmd data s
  | MRobot p => getRobotPose p s
  | MGesture p => getGesture p s
  | MObstacle p => getObstaclePose p s
  end.

(** [ros::spinOnce()]: the pending deliveries, oldest first. *)
Definition spinOnce (pending : list msg) : M unit :=
  modify (fun s => fold_left (fun s' m => deliver m s') pending s).

(** ** The "look" pipeline *)

(** [for (i = 0; i < n; i++) dst[i] = src[i];] into an array of [n] cells.
    The source reads [src[i]] unchecked; the services answer with full
    grids, and a cell beyond a shorter answer reads as [+0] here. *)
Definition copy_cells (n : nat) (src : list double) : list double :=
  map (fun i => nth i src zero) (seq 0 n).

(** [v < -HSIZE/2 || v > HSIZE/2]; the macro expands to [-400/2], an
    [int] division. *)
Definition out_of_range (size : Z) (v : double) : bool :=
  lt v (of_int (Z.quot (- size) 2)) || gt v (of_int (Z.quot size 2)).

Definition out_of_bounds (p : Pose2D) : bool :=
  out_of_range HSIZE (x p) || out_of_range VSIZE (y p).

Definition look_gesture (srv : Services) : M unit :=
  s <- get ;;
  r <- call (CallGest (gesture s)) (cli_gest srv (gesture s)) ;;
  match r with
  | Some tgt =>
      modify (set_target tgt) ;;
      (if isfinite (x tgt) && isfinite (y tgt)
       then assign_state 1
       else ret tt) ;;
      when (out_of_bounds tgt) (assign_state 0)
  | None => exit 1
  end.

(** The OpenCV window of [plot] after a valid landscape is left out. *)
Definition look_pertinence (srv : Services) : M unit :=
  s <- get ;;
  let request_matrices := copy_cells (RES * RES * NZ) (matrices s) in
  r <- call (CallPert (target s) request_matrices)
            (cli_pert srv (target s) request_matrices) ;;
  match r with
  | Some response =>
      modify (set_landscape (copy_cells (RES * RES) response)) ;;
      s' <- get ;;
      if negb (isfinite (nth 0 (landscape s') zero))
      then assign_state 0
      else assign_state 2
  | None => exit 1
  end.

Definition look_montecarlo (srv : Services) : M unit :=
  s <- get ;;
  let request_landscape := copy_cells (RES * RES) (landscape s) in
  r <- call (CallMont (target s) request_landscape)
            (cli_mont srv (target s) request_landscape) ;;
  match r with
  | Some g =>
      modify (set_goal g) ;;
      if out_of_bounds g
      then assign_state 0
      else assign_state 3
  | None => exit 1
  end.

Definition look_rrtstar (srv : Services) : M unit :=
  s <- get ;;
  let init := {| vec_x := x (robot s); vec_y := y (robot s); vec_z := zero |} in
  let goal_reg :=
    {| center_x := x (goal s); center_y := y (goal s); center_z := zero;
       size_x := of_int 20; size_y := of_int 20; size_z := zero |} in
  let req := {| WS := WS (srv_rrts_request s);
                Obstacles := Obstacles (srv_rrts_request s);
                Goal := goal_reg;
                Init := init |} in
  modify (set_srv_rrts_request req) ;;
  r <- call (CallRrts req) (cli_rrts srv req) ;;
  match r with
  | Some path =>
      let points :=
        map (fun p => {| vec_x := vec_x p; vec_y := vec_y p; vec_z := vec_z p |})
            path in
      modify (set_rrtPath points) ;;
      emit (PubPath points) ;;
      assign_state 4
  | None => exit 1
  end.

(** The turn towards the goal, over any number type: the two assignments
    to [dtheta]. *)
Section Heading.
  Variable T : Type.
  Variable minus : T -> T -> T.
  Variable atan2 : T -> T -> T.
  Variables sin cos : T -> T.

Definition dtheta (goal_x goal_y robot_x robot_y robot_theta : T) : T :=
    let d := minus (atan2 (minus goal_y robot_y) (minus goal_x robot_x))
                   robot_theta in
    atan2 (sin d) (cos d).
End Heading.

Arguments dtheta {T} minus atan2 sin cos
  goal_x goal_y robot_x robot_y robot_theta.

Definition dtheta_double (L : Libm) (g r : Pose2D) : double :=
  dtheta sub (Cmath.atan2 L) (Cmath.sin L) (Cmath.cos L)
         (x g) (y g) (x r) (y r) (theta r).

Definition look_turn (L : Libm) : M unit :=
  s <- get ;;
  let d := dtheta_double L (goal s) (robot s) in
  modify (set_cmd_turn d) ;;
  emit (PubTurn d).

(** The body of [if (cmd.data == 1)]. *)
Definition look (L : Libm) (srv : Services) : M unit :=
  assign_state 0 ;;
  look_gesture srv ;;
  s1 <- get ;; when (state s1 =? 1) (look_pertinence srv) ;;
  s2 <- get ;; when (state s2 =? 2) (look_montecarlo srv) ;;
  s3 <- get ;; when (state s3 =? 3) (look_rrtstar srv) ;;
  s4 <- get ;; when (state s4 =? 4) (look_turn L) ;;
  modify (set_cmd 0).

(** ** The motion dispatcher and the loop *)

Definition go : M unit :=
  modify (set_enable true) ;;
  s <- get ;; emit (PubEnable (enable s)) ;;
  modify (set_cmd 0).

Definition stop : M unit :=
  modify (set_enable false) ;;
  s <- get ;; emit (PubEnable (enable s)) ;;
  modify (set_cmd 0).

(** One turn of the [while] body, up to [ros::spinOnce()]. *)
Definition tick (L : Libm) (srv : Services) : M unit :=
  s <- get ;; when (cmd s =? 1) (look L srv) ;;
  s' <- get ;; when (cmd s' =? 2) go ;;
  s'' <- get ;; when (cmd s'' =? 3) stop.

(** [while (ros::ok()) { ...; ros::spinOnce(); loop_rate.sleep(); } return 0;]
    One element per turn for which [ros::ok()] holds: the services as they
    answer during that turn and the deliveries drained at its end. *)
Fixpoint loop (L : Libm) (turns : list (Services * list msg)) : M unit :=
  match turns with
  | [] => exit 0
  | (srv, pending) :: rest =>
      tick L srv ;; spinOnce pending ;; loop L rest
  end.

(** ** Start-up *)

Definition zero_pose2d : Pose2D := {| x := zero; y := zero; theta := zero |}.

Definition zero_region : Region :=
  {| center_x := zero; center_y := zero; center_z := zero;
     size_x := zero; size_y := zero; size_z := zero |}.

(** The objects as their constructors leave them: ROS messages are
    zero-initialised, [int state = 0]. *)
Definition initial_store : Store :=
  {| cmd := 0;
     obs := zero_pose2d;
     robot := zero_pose2d;
     gesture :=
       {| position := {| point_x := zero; point_y := zero; point_z := zero |};
          orientation := {| quat_x := zero; quat_y := zero;
                            quat_z := zero; quat_w := zero |} |};
     target := zero_pose2d;
     goal := zero_pose2d;
     rrtPath := [];
     matrices := repeat zero (NZ * RES * RES);
     landscape := repeat zero (RES * RES);
     enable := false;
     cmd_turn := zero;
     srv_rrts_request :=
       {| WS := zero_region; Obstacles := []; Goal := zero_region;
          Init := {| vec_x := zero; vec_y := zero; vec_z := zero |} |};
     state := 0 |}.

(** Obstacle dimensions (predefined): [obsdim[0] = obsdim[1] = 80]. *)
Definition obsdim : list double := [of_int 80; of_int 80].

(** [main] up to the loop. The OpenCV windows of [plot] show the grids and
    change nothing in the store; they are left out. *)
Definition startup (cli_spat : SpatialReasoner) : M unit :=
  modify (set_enable false) ;;
  let workspace :=
    {| center_x := of_int 0; center_y := of_int 0; center_z := of_int 0;
       size_x := of_int HSIZE; size_y := of_int VSIZE; size_z := of_int 0 |} in
  modify (fun s =>
    set_srv_rrts_request
      {| WS := workspace;
         Obstacles := Obstacles (srv_rrts_request s);
         Goal := Goal (srv_rrts_request s);
         Init := Init (srv_rrts_request s) |} s) ;;
  s <- get ;;
  let obs_reg :=
    {| center_x := x (obs s); center_y := y (obs s); center_z := of_int 0;
       size_x := nth 0 obsdim zero; size_y := nth 1 obsdim zero;
       size_z := of_int 0 |} in
  modify (fun s =>
    set_srv_rrts_request
      {| WS := WS (srv_rrts_request s);
         Obstacles := Obstacles (srv_rrts_request s) ++ [obs_reg];
         Goal := Goal (srv_rrts_request s);
         Init := Init (srv_rrts_request s) |} s) ;;
  s' <- get ;;
  r <- call (CallSpat (obs s') obsdim) (cli_spat (obs s') obsdim) ;;
  match r with
  | Some response =>
      modify (set_matrices (copy_cells (NZ * RES * RES) response))
  | None => exit 1
  end.

(** The whole program: exit code, final store and trace. *)
Definition main (L : Libm) (cli_spat : SpatialReasoner)
    (turns : list (Services * list msg)) : outcome unit :=
  (startup cli_spat ;; loop L turns) initial_store [].

(** ** Observing an outcome *)

Definition out_store {A} (o : outcome A) : Store :=
  match o with
  | Ret _ s _ | Exit _ s _ => s
  end.

Definition out_trace {A} (o : outcome A) : trace :=
  match o with
  | Ret _ _ t | Exit _ _ t => t
  end.

(** [Some code] once the process has returned from [main]. *)
Definition exit_code {A} (o : outcome A) : option Z :=
  match o with
  | Ret _ _ _ => None
  | Exit c _ _ => Some c
  end.

(** An outcome whose trace is put after [t]. *)
Definition prepend {A} (t : trace) (o : outcome A) : outcome A :=
  match o with
  | Ret a s t' => Ret a s (t ++ t')
  | Exit c s t' => Exit c s (t ++ t')
  end.

(** ** Reading a trace *)

Definition is_call (e : event) : bool :=
  match e with
  | CallSpat _ _ _ | CallGest _ _ | CallPert _ _ _
  | CallMont _ _ _ | CallRrts _ _ => true
  | _ => false
  end.

(** No service call of the trace returned false. *)
Definition all_calls_ok (t : trace) : bool :=
  forallb (fun e => negb (failed_call e)) t.

(** The turn commands published, in order. *)
Fixpoint turn_publishes (t : trace) : list double :=
  match t with
  | [] => []
  | PubTurn v :: t' => v :: turn_publishes t'
  | _ :: t' => turn_publishes t'
  end.

(** Each value of a history is the previous one plus one, or 0. *)
Fixpoint stepwise (prev : Z) (h : list Z) : bool :=
  match h with
  | [] => true
  | n :: h' => ((n =? prev + 1) || (n =? 0)) && stepwise n h'
  end.

(** What a turn of the loop can come to, started on an empty trace: it
    returns with every call answered, or it leaves [main] with status 1,
    the failed call being the last event and nothing published before. *)
Definition turn_result (o : outcome unit) : Prop :=
  match o with
  | Ret _ _ ev => all_calls_ok ev = true
  | Exit c _ ev' =>
      c = 1 /\
      exists ev e, ev' = ev ++ [e] /\ failed_call e = true /\
                   all_calls_ok ev = true /\ filter is_publish ev = []
  end.

(** How the process ends: normally, every call having answered, or with
    status 1 right after a call that failed. *)
Definition ends_well (o : outcome unit) : Prop :=
  exists c s t,
    o = Exit c s t /\
    ((c = 0 /\ all_calls_ok t = true) \/
     (c = 1 /\ exists t0 e, t = t0 ++ [e] /\ failed_call e = true /\
                            all_calls_ok t0 = true)).

(** ** The validity policy in the words of the specification *)

(** [-size/2 <= v <= size/2], on the rational the double stands for. *)
Definition within (size : Z) (v : double) : Prop :=
  (inject_Z (- size) / 2 <= to_Q v /\ to_Q v <= inject_Z size / 2)%Q.

(** A target or goal is valid iff both coordinates are finite and lie
    within [-HSIZE/2, HSIZE/2] x [-VSIZE/2, VSIZE/2]. *)
Definition valid_point (p : Pose2D) : Prop :=
  isfinite (x p) = true /\ isfinite (y p) = true /\
  within HSIZE (x p) /\ within VSIZE (y p).

(** The four corners of the workspace. *)
Definition corner (p : Pose2D) : Prop :=
  In (x p) [of_int (Z.quot (- HSIZE) 2); of_int (Z.quot HSIZE 2)] /\
  In (y p) [of_int (Z.quot (- VSIZE) 2); of_int (Z.quot VSIZE 2)].

(** The check of the gesture stage, as the code evaluates it. *)
Definition target_accepted (p : Pose2D) : bool :=
  isfinite (x p) && isfinite (y p) && negb (out_of_bounds p).

(** ** Other notions of the specification *)

(** [100 * v] for the coordinates of a delivered pose, theta and the
    orientation as delivered. *)
Definition scaled_pose2d (p : Pose2D) : Pose2D :=
  {| x := mul (of_int 100) (x p);
     y := mul (of_int 100) (y p);
     theta := theta p |}.

Definition scaled_pose (p : Pose) : Pose :=
  {| position :=
       {| point_x := mul (of_int 100) (point_x (position p));
          point_y := mul (of_int 100) (point_y (position p));
          point_z := mul (of_int 100) (point_z (position p)) |};
     orientation := orientation p |}.

(** The obstacle region [main] builds before its loop when no obstacle
    pose has been delivered: centre (0,0,0), size 80 x 80 x 0. *)
Definition startup_obstacle : Region :=
  {| center_x := zero; center_y := zero; center_z := zero;
     size_x := of_int 80; size_y := of_int 80; size_z := zero |}.

(** The store with the leftovers of an earlier activation replaced: the
    pipeline state, the target, the goal, the fused landscape, the path and
    the turn command. *)
Definition with_leftovers (n : Z) (tg gl : Pose2D) (la : list double)
    (rp : list Vector3) (ct : double) (s : Store) : Store :=
  set_state n (set_target tg (set_goal gl (set_landscape la
    (set_rrtPath rp (set_cmd_turn ct s))))).

(** A double [v] lies in the half-open interval from -pi to pi. *)
Definition in_turn_range (v : double) : Prop :=
  isfinite v = true /\ (- PI < Q2R (to_Q v) <= PI)%R.

(** ** The heading formula over the real numbers *)

Module Real.

Local Open Scope R_scope.

(** The two-argument arctangent: the angle of the point [(b, a)]. *)
Definition atan2 (a b : R) : R :=
  match total_order_T 0 b with
  | inleft (left _) => atan (a / b)
  | inleft (right _) =>
      match total_order_T 0 a with
      | inleft (left _) => PI / 2
      | inleft (right _) => 0
      | inright _ => - (PI / 2)
      end
  | inright _ =>
      if Rle_dec 0 a then atan (a / b) + PI else atan (a / b) - PI
  end.

Definition dtheta : R -> R -> R -> R -> R -> R :=
  dtheta Rminus atan2 sin cos.

End Real.

(** ** Fixtures for the worked examples *)

(** Services that give the same answers whatever the request. *)
Definition answering (tgt : option Pose2D) (land : option (list double))
    (g : option Pose2D) (path : option (list Vector3)) : Services :=
  {| cli_gest := fun _ => tgt;
     cli_pert := fun _ _ => land;
     cli_mont := fun _ _ => g;
     cli_rrts := fun _ => path |}.

Definition point2d (a b : double) : Pose2D :=
  {| x := a; y := b; theta := zero |}.

(** A libm that answers [+0] on ordinary arguments; it only inhabits
    [Libm] where an example needs one. *)
Definition libm_zero : Libm :=
  {| libm_atan2 := fun _ _ => zero;
     libm_sin := fun _ => zero;
     libm_cos := fun _ => zero |}.

(** 0.07, 0.5, 1.5 and 150 as doubles. *)
Definition d0_07 : double := S754_finite false 5044031582654956 (-56).
Definition dhalf : double := S754_finite false 4503599627370496 (-53).
Definition d1_5 : double := S754_finite false 6755399441055744 (-52).
Definition d150 : double := S754_finite false 5277655813324800 (-45).

(** Services for a "look" that goes through: target (0,0), a landscape of
    1600 cells 0.5, goal [g], an empty path. *)
Definition look_services (g : Pose2D) : Services :=
  answering (Some (point2d zero zero)) (Some (repeat dhalf (RES * RES)))
            (Some g) (Some []).

(** The store after start-up deliveries of a robot pose and of the
    command "look". *)
Definition look_store (robot_pose : Pose2D) : Store :=
  deliver (MCommand 1) (deliver (MRobot robot_pose) initial_store).

(** A spatial reasoner that answers with [NZ] grids of cells 0.5. *)
Definition spat_services : SpatialReasoner :=
  fun _ _ => Some (repeat dhalf (NZ * RES * RES)).

(** ** The display grids of [main]

    [float spmat0[RES][RES], ..., spmat4[RES][RES]] and
    [float pertmatrix[RES][RES]] are filled cell by cell for [plot]. A cell
    is [None] until it is written; a write outside a grid, undefined in the
    source, makes the fill fail. *)

(** A C++ [float]: IEEE 754 binary32. *)
Definition float := spec_float.

(** The conversion of a [double] assigned to a [float]: rounding to
    nearest, ties to even. *)
Definition to_float (d : double) : float :=
  match d with
  | S754_finite s m e => binary_round 24 128 s m e
  | _ => d
  end.

Definition grid := list (list (option float)).

Definition fresh_grid : grid := repeat (repeat None RES) RES.

(** [l[n] = v], failing beyond the end of [l]. *)
Fixpoint set_nth {A : Type} (n : nat) (v : A) (l : list A) : option (list A) :=
  match l, n with
  | [], _ => None
  | _ :: l', O => Some (v :: l')
  | a :: l', S n' =>
      match set_nth n' v l' with
      | Some r => Some (a :: r)
      | None => None
      end
  end.

(** [g[r][c] = v] with [int] indices. *)
Definition write_cell (g : grid) (r c : Z) (v : float) : option grid :=
  if (r <? 0) || (c <? 0) then None
  else
    match nth_error g (Z.to_nat r) with
    | None => None
    | Some row =>
        match set_nth (Z.to_nat c) (Some v) row with
        | None => None
        | Some row' => set_nth (Z.to_nat r) row' g
        end
    end.

Record Plots := {
  spmat0 : grid; spmat1 : grid; spmat2 : grid; spmat3 : grid; spmat4 : grid
}.

Definition fresh_plots : Plots :=
  {| spmat0 := fresh_grid; spmat1 := fresh_grid; spmat2 := fresh_grid;
     spmat3 := fresh_grid; spmat4 := fresh_grid |}.

(** The body of the start-up loop for one [i], the five [if (depth == k)]
    in turn; [value i] stands for [matrices[i].data*255]. *)
Definition spmat_step (value : Z -> float) (i : Z) (p : Plots) : option Plots :=
  let depth := Z.quot i (Z.of_nat (RES * RES)) in
  let l_ind := Z.rem i (Z.of_nat (RES * RES)) in
  let r := Z.quot l_ind (Z.of_nat RES) in
  let c := Z.rem l_ind (Z.of_nat RES) in
  let v := value i in
  match (if depth =? 0
         then match write_cell (spmat0 p) r c v with
              | Some g => Some {| spmat0 := g; spmat1 := spmat1 p;
                                  spmat2 := spmat2 p; spmat3 := spmat3 p;
                                  spmat4 := spmat4 p |}
              | None => None
              end
         else Some p) with
  | None => None
  | Some p0 =>
  match (if depth =? 1
         then match write_cell (spmat1 p0) r c v with
              | Some g => Some {| spmat0 := spmat0 p0; spmat1 := g;
                                  spmat2 := spmat2 p0; spmat3 := spmat3 p0;
                                  spmat4 := spmat4 p0 |}
              | None => None
              end
         else Some p0) with
  | None => None
  | Some p1 =>
  match (if depth =? 2
         then match write_cell (spmat2 p1) r c v with
              | Some g => Some {| spmat0 := spmat0 p1; spmat1 := spmat1 p1;
                                  spmat2 := g; spmat3 := spmat3 p1;
                                  spmat4 := spmat4 p1 |}
              | None => None
              end
         else Some p1) with
  | None => None
  | Some p2 =>
  match (if depth =? 3
         then match write_cell (spmat3 p2) r c v with
              | Some g => Some {| spmat0 := spmat0 p2; spmat1 := spmat1 p2;
                                  spmat2 := spmat2 p2; spmat3 := g;
                                  spmat4 := spmat4 p2 |}
              | None => None
              end
         else Some p2) with
  | None => None
  | Some p3 =>
      if depth =? 4
      then match write_cell (spmat4 p3) r c v with
           | Some g => Some {| spmat0 := spmat0 p3; spmat1 := spmat1 p3;
                               spmat2 := spmat2 p3; spmat3 := spmat3 p3;
                               spmat4 := g |}
           | None => None
           end
      else Some p3
  end end end end.

(** [for (int i = 0; i < n; i++) body], stopping at a failure. *)
Definition for_upto {S : Type} (n : nat) (body : Z -> S -> option S) (s : S)
    : option S :=
  fold_left (fun acc i => match acc with
                          | Some s' => body (Z.of_nat i) s'
                          | None => None
                          end)
            (seq 0 n) (Some s).

Definition fill_spmats_with (value : Z -> float) : option Plots :=
  for_upto (NZ * RES * RES) (spmat_step value) fresh_plots.

(** [matrices[i].data*255] stored in a [float]. *)
Definition plot_value (cells : list double) (i : Z) : float :=
  to_float (mul (nth (Z.to_nat i) cells zero) (of_int 255)).

(** The five grids shown at start-up for the copied [matrices]. *)
Definition fill_spmats (cells : list double) : option Plots :=
  fill_spmats_with (plot_value cells).

(** [pertmatrix[i/RES][i%RES] = srv_pert.response.landscape[i].data*255]. *)
Definition pertmatrix_step (value : Z -> float) (i : Z) (g : grid)
    : option grid :=
  write_cell g (Z.quot i (Z.of_nat RES)) (Z.rem i (Z.of_nat RES))
             (value i).

Definition fill_pertmatrix_with (value : Z -> float) : option grid :=
  for_upto (RES * RES) (pertmatrix_step value) fresh_grid.

Definition fill_pertmatrix (response : list double) : option grid :=
  fill_pertmatrix_with (plot_value response).

(** The grid whose cell [(r, c)] holds [value (base + r * RES + c)]. *)
Definition row_major (value : Z -> float) (base : Z) : grid :=
  map (fun r => map (fun c => Some (value (base + Z.of_nat r * Z.of_nat RES
                                           + Z.of_nat c)))
                    (seq 0 RES))
      (seq 0 RES).

(** ** More readings of a trace and of the deliveries *)

(** The enable flags published, in order. *)
Fixpoint enable_publishes (t : trace) : list bool :=
  match t with
  | [] => []
  | PubEnable b :: t' => b :: enable_publishes t'
  | _ :: t' => enable_publishes t'
  end.

(** The matrices sent to the pertinence mapper, in order. *)
Fixpoint pert_requests (t : trace) : list (list double) :=
  match t with
  | [] => []
  | CallPert _ mats _ :: t' => mats :: pert_requests t'
  | _ :: t' => pert_requests t'
  end.

Inductive service := Gesture | Pertinence | MonteCarlo | RrtStar | Spatial.

(** The services called, in order. *)
Fixpoint calls_made (t : trace) : list service :=
  match t with
  | [] => []
  | CallSpat _ _ _ :: t' => Spatial :: calls_made t'
  | CallGest _ _ :: t' => Gesture :: calls_made t'
  | CallPert _ _ _ :: t' => Pertinence :: calls_made t'
  | CallMont _ _ _ :: t' => MonteCarlo :: calls_made t'
  | CallRrts _ _ :: t' => RrtStar :: calls_made t'
  | _ :: t' => calls_made t'
  end.

(** What was delivered on each topic, oldest first. *)
Fixpoint commands_of (pending : list msg) : list Z :=
  match pending with
  | [] => []
  | MCommand d :: rest => d :: commands_of rest
  | _ :: rest => commands_of rest
  end.

Fixpoint robot_poses_of (pending : list msg) : list Pose2D :=
  match pending with
  | [] => []
  | MRobot p :: rest => p :: robot_poses_of rest
  | _ :: rest => robot_poses_of rest
  end.

Fixpoint obstacle_poses_of (pending : list msg) : list Pose2D :=
  match pending with
  | [] => []
  | MObstacle p :: rest => p :: obstacle_poses_of rest
  | _ :: rest => obstacle_poses_of rest
  end.

Fixpoint gestures_of (pending : list msg) : list Pose :=
  match pending with
  | [] => []
  | MGesture p :: rest => p :: gestures_of rest
  | _ :: rest => gestures_of rest
  end.

(** The workspace region of [main]: centre (0,0,0), size HSIZE x VSIZE x 0. *)
Definition workspace_region : Region :=
  {| center_x := zero; center_y := zero; center_z := zero;
     size_x := of_int HSIZE; size_y := of_int VSIZE; size_z := zero |}.

(** The request the planner gets for goal [g] from the store [s]. *)
Definition planner_request (s : Store) (g : Pose2D) : RrtRequest :=
  {| WS := WS (srv_rrts_request s);
     Obstacles := Obstacles (srv_rrts_request s);
     Goal := {| center_x := x g; center_y := y g; center_z := zero;
                size_x := of_int 20; size_y := of_int 20; size_z := zero |};
     Init := {| vec_x := x (robot s); vec_y := y (robot s); vec_z := zero |} |}.

(** What a request to the planner always looks like. *)
Definition request_shape (req : RrtRequest) : Prop :=
  WS req = workspace_region /\
  size_x (Goal req) = of_int 20 /\ size_y (Goal req) = of_int 20 /\
  size_z (Goal req) = zero /\ center_z (Goal req) = zero /\
  vec_z (Init req) = zero /\
  out_of_range HSIZE (center_x (Goal req)) = false /\
  out_of_range VSIZE (center_y (Goal req)) = false.

(** A coordinate that passes the bound test: NaN, or finite and within
    [-size/2, size/2]. *)
Definition passes_bound (size : Z) (v : double) : Prop :=
  is_nan v = true \/ (isfinite v = true /\ within size v).

(** ** What the C standard fixes of [atan2], [sin] and [cos]

    C11 7.12.4.4: [atan2] returns a value in the interval from -pi to pi;
    in binary64 the largest such value is the double nearest to pi, which
    is below pi. Annex F.10.1.4 to F.10.1.6: on numbers [atan2] returns a
    number, [atan2(+0, x)] is [+0] for [x > 0], [atan2(y, +0)] is pi/2 for
    [y > 0], [sin(+0)] is [+0], [cos(+0)] is 1, [sin] and [cos] return a
    number on every finite argument, and [sin] of an infinity is NaN. *)

(** 1.0, and the double nearest to pi/2 (0x3FF921FB54442D18). *)
Definition one : double := S754_finite false 4503599627370496 (-52).
Definition half_pi : double := S754_finite false 7074237752028440 (-52).

(** The cosine of [half_pi] rounded to nearest, 6.123233995736766e-17
    (0x3C91A62633145C07). *)
Definition cos_half_pi : double := S754_finite false 4967757600021511 (-106).

Record conforming (L : Libm) : Prop := {
  atan2_in_range :
    forall a b, is_nan a = false -> is_nan b = false ->
                in_turn_range (libm_atan2 L a b);
  atan2_zero_positive :
    forall m e, libm_atan2 L zero (S754_finite false m e) = zero;
  atan2_positive_zero :
    forall m e, libm_atan2 L (S754_finite false m e) zero = half_pi;
  sin_zero : libm_sin L zero = zero;
  cos_zero : libm_cos L zero = one;
  sin_number : forall a, isfinite a = true -> is_nan (libm_sin L a) = false;
  cos_number : forall a, isfinite a = true -> is_nan (libm_cos L a) = false;
  sin_infinity : forall s, is_nan (libm_sin L (S754_infinity s)) = true
}.

(** A libm that rounds to nearest at [half_pi]: the sine of that double
    is 1 - 1.9e-33, its cosine 6.1232339957367660e-17, and the angle of the
    point (6.123e-17, 1) is pi/2 - 6.123e-17. *)
Definition exact_at_half_pi (L : Libm) : Prop :=
  libm_sin L half_pi = one /\
  libm_cos L half_pi = cos_half_pi /\
  libm_atan2 L one cos_half_pi = half_pi.

(** A robot pose the turn can be computed from: no NaN in the position
    and a finite heading. *)
Definition usable_pose (r : Pose2D) : Prop :=
  is_nan (x r) = false /\ is_nan (y r) = false /\ isfinite (theta r) = true.

(** Below [2^k] in magnitude, by the number of digits. *)
Definition digits_below (k : Z) (v : double) : Prop :=
  match v with
  | S754_zero _ => True
  | S754_finite _ m e => Zpos (digits2_pos m) + e <= k
  | _ => False
  end.

(** [x] is [x0] after [k] right shifts: the mantissa is the quotient by
    [2^k], and the round bit is set only from half a unit up. *)
Definition shifted (k : Z) (x0 x : shr_record) : Prop :=
  0 <= shr_m x /\
  exists rem,
    shr_m x0 = shr_m x * 2 ^ k + rem /\ 0 <= rem < 2 ^ k /\
    (shr_r x = true -> 2 ^ (k - 1) <= rem).

(** A libm that is right where the standard fixes the result and at
    [half_pi], and coarse elsewhere; it only inhabits [conforming]. *)
Definition libm_coarse : Libm :=
  {| libm_atan2 := fun a _ =>
       match a with
       | S754_finite false _ _ => half_pi
       | _ => zero
       end;
     libm_sin := fun a =>
       match a with
       | S754_finite false _ _ => one
       | S754_infinity _ => NaN
       | _ => zero
       end;
     libm_cos := fun a =>
       match a with
       | S754_finite false 7074237752028440 (-52) => cos_half_pi
       | _ => one
       end |}.

(** * Properties *)

(** ** Order of doubles and order of the rationals they stand for *)

Lemma digits2_pos_bounds (m : positive) :
  2 ^ (Zpos (digits2_pos m) - 1) <= Zpos m < 2 ^ Zpos (digits2_pos m).
Proof.
  induction m as [m IH | m IH |]; cbn [digits2_pos].
  - rewrite Pos2Z.inj_succ.
    replace (Z.succ (Z.pos (digits2_pos m)) - 1) with (Z.succ (Z.pos (digits2_pos m) - 1)) by lia.
    rewrite !Z.pow_succ_r by lia. lia.
  - rewrite Pos2Z.inj_succ.
    replace (Z.succ (Z.pos (digits2_pos m)) - 1) with (Z.succ (Z.pos (digits2_pos m) - 1)) by lia.
    rewrite !Z.pow_succ_r by lia. lia.
  - cbn. lia.
Qed.

Lemma wf_finite_inv s m e :
  wf (S754_finite s m e) ->
  emin64 <= e /\ Zpos m < 2 ^ 53 /\ (emin64 < e -> 2 ^ 52 <= Zpos m).
Proof.
  unfold wf, valid_binary, bounded, canonical_mantissa, fexp, SpecFloat.emin, prec, emax, emin64.
  intros H. apply andb_true_iff in H as [H _]. apply Z.eqb_eq in H.
  pose proof (digits2_pos_bounds m) as [Hlo Hhi].
  set (d := Zpos (digits2_pos m)) in *.
  assert (Hd : 0 < d) by (unfold d; lia).
  assert (Hcases : d = 53 \/ (e = -1074 /\ d <= 53)) by lia.
  repeat split.
  - lia.
  - destruct Hcases as [-> | [_ Hle]]; [exact Hhi|].
    eapply Z.lt_le_trans; [exact Hhi|]. apply Z.pow_le_mono_r; lia.
  - intros He. destruct Hcases as [Hd53 | [? _]]; [|lia].
    rewrite Hd53 in Hlo. exact Hlo.
Qed.

Lemma two_pow_pos (e : Z) : (0 < 2 ^ e)%Q.
Proof. apply Qpower_0_lt. reflexivity. Qed.

Lemma mant_lt_across_exponents (m1 m2 : positive) (e1 e2 : Z) :
  e1 < e2 -> Zpos m1 < 2 ^ 53 -> 2 ^ 52 <= Zpos m2 ->
  (inject_Z (Zpos m1) * 2 ^ e1 < inject_Z (Zpos m2) * 2 ^ e2)%Q.
Proof.
  intros He H1 H2.
  assert (Hsplit : (2 ^ e2 == inject_Z (2 ^ (e2 - e1)) * 2 ^ e1)%Q).
  { replace e2 with ((e2 - e1) + e1) at 1 by lia.
    rewrite Qpower_plus by discriminate.
    rewrite Zpower_Qpower by lia. reflexivity. }
  rewrite Hsplit, Qmult_assoc, <- inject_Z_mult.
  apply Qmult_lt_r; [apply two_pow_pos|].
  rewrite <- Zlt_Qlt.
  assert (2 ^ 1 <= 2 ^ (e2 - e1)) by (apply Z.pow_le_mono_r; lia).
  change (2 ^ 1) with 2 in *. change (2 ^ 53) with (2 ^ 52 * 2) in H1.
  nia.
Qed.

Lemma Qcompare_mant (m1 m2 : positive) (e1 e2 : Z) :
  wf (S754_finite false m1 e1) -> wf (S754_finite false m2 e2) ->
  (inject_Z (Zpos m1) * 2 ^ e1 ?= inject_Z (Zpos m2) * 2 ^ e2)%Q =
  match e1 ?= e2 with
  | Lt => Lt
  | Gt => Gt
  | Eq => Pos.compare_cont Eq m1 m2
  end.
Proof.
  intros W1 W2.
  apply wf_finite_inv in W1 as (L1 & U1 & N1).
  apply wf_finite_inv in W2 as (L2 & U2 & N2).
  destruct (Z.compare_spec e1 e2) as [-> | Hlt | Hgt].
  - change (Pos.compare_cont Eq m1 m2) with (m1 ?= m2)%positive.
    destruct (Pos.compare_spec m1 m2) as [-> | Hm | Hm].
    + apply (proj1 (Qeq_alt _ _)). reflexivity.
    + apply (proj1 (Qlt_alt _ _)). apply Qmult_lt_r; [apply two_pow_pos|].
      rewrite <- Zlt_Qlt. lia.
    + apply (proj1 (Qgt_alt _ _)). apply Qmult_lt_r; [apply two_pow_pos|].
      rewrite <- Zlt_Qlt. lia.
  - apply (proj1 (Qlt_alt _ _)). apply mant_lt_across_exponents; lia.
  - apply (proj1 (Qgt_alt _ _)). apply mant_lt_across_exponents; lia.
Qed.

Lemma mant_pos (m : positive) (e : Z) : (0 < inject_Z (Zpos m) * 2 ^ e)%Q.
Proof.
  apply Qmult_lt_0_compat; [|apply two_pow_pos].
  change 0%Q with (inject_Z 0). rewrite <- Zlt_Qlt. lia.
Qed.

Lemma to_Q_neg m e :
  (to_Q (S754_finite true m e) == - (inject_Z (Zpos m) * 2 ^ e))%Q.
Proof. cbn [to_Q cond_Zopp]. rewrite inject_Z_opp. ring. Qed.

Lemma Qcompare_opp (a b : Q) : (- a ?= - b)%Q = CompOpp (a ?= b)%Q.
Proof.
  destruct (Qcompare_spec a b) as [H | H | H]; cbn [CompOpp].
  - apply (proj1 (Qeq_alt _ _)). rewrite H. reflexivity.
  - apply (proj1 (Qgt_alt _ _)). Lqa.lra.
  - apply (proj1 (Qlt_alt _ _)). Lqa.lra.
Qed.

Lemma SFcompare_to_Q (a b : double) :
  wf a -> wf b -> isfinite a = true -> isfinite b = true ->
  SFcompare a b = Some (to_Q a ?= to_Q b)%Q.
Proof.
  intros Wa Wb Fa Fb.
  destruct a as [sa | sa | | sa ma ea]; try discriminate;
  destruct b as [sb | sb | | sb mb eb]; try discriminate.
  - reflexivity.
  - cbn [SFcompare]. f_equal. symmetry. destruct sb.
    + apply (proj1 (Qgt_alt _ _)). rewrite to_Q_neg. cbn [to_Q].
      pose proof (mant_pos mb eb). Lqa.lra.
    + apply (proj1 (Qlt_alt _ _)). cbn [to_Q cond_Zopp]. apply mant_pos.
  - cbn [SFcompare]. f_equal. symmetry. destruct sa.
    + apply (proj1 (Qlt_alt _ _)). rewrite to_Q_neg. cbn [to_Q].
      pose proof (mant_pos ma ea). Lqa.lra.
    + apply (proj1 (Qgt_alt _ _)). cbn [to_Q cond_Zopp]. apply mant_pos.
  - cbn [SFcompare]. f_equal.
    pose proof (mant_pos ma ea) as Pa. pose proof (mant_pos mb eb) as Pb.
    destruct sa, sb.
    + rewrite !to_Q_neg.
      rewrite Qcompare_opp, (Qcompare_mant _ _ _ _ Wa Wb).
      destruct (ea ?= eb); reflexivity.
    + symmetry. apply (proj1 (Qlt_alt _ _)). rewrite to_Q_neg. cbn [to_Q cond_Zopp]. Lqa.lra.
    + symmetry. apply (proj1 (Qgt_alt _ _)). rewrite to_Q_neg. cbn [to_Q cond_Zopp]. Lqa.lra.
    + cbn [to_Q cond_Zopp]. symmetry. apply Qcompare_mant; assumption.
Qed.

(** ** The bound test of the code and the validity policy *)

Lemma lt_to_Q (a b : double) :
  wf a -> wf b -> isfinite a = true -> isfinite b = true ->
  lt a b = true <-> (to_Q a < to_Q b)%Q.
Proof.
  intros Wa Wb Fa Fb. unfold lt, SFltb.
  rewrite (SFcompare_to_Q a b Wa Wb Fa Fb).
  rewrite Qlt_alt. destruct (to_Q a ?= to_Q b)%Q; split; congruence.
Qed.

Lemma out_of_range_to_Q (v : double) :
  wf v -> isfinite v = true ->
  out_of_range 400 v = false <-> within 400 v.
Proof.
  intros Wv Fv. unfold out_of_range, within, gt.
  change (SFltb (of_int (Z.quot 400 2)) v) with (lt (of_int (Z.quot 400 2)) v).
  change (Z.quot (Z.opp 400) 2) with (-200). change (Z.quot 400 2) with 200.
  assert (Wlo : wf (of_int (-200))) by reflexivity.
  assert (Whi : wf (of_int 200)) by reflexivity.
  assert (Flo : isfinite (of_int (-200)) = true) by reflexivity.
  assert (Fhi : isfinite (of_int 200) = true) by reflexivity.
  assert (Qlo : (to_Q (of_int (-200)) == inject_Z (- 400) / 2)%Q) by reflexivity.
  assert (Qhi : (to_Q (of_int 200) == inject_Z 400 / 2)%Q) by reflexivity.
  pose proof (lt_to_Q v (of_int (-200)) Wv Wlo Fv Flo) as Hlo.
  pose proof (lt_to_Q (of_int 200) v Whi Wv Fhi Fv) as Hhi.
  rewrite <- Qlo, <- Qhi.
  rewrite orb_false_iff.
  destruct (lt v (of_int (-200))), (lt (of_int 200) v); split; intros H.
  all: try (destruct H; discriminate).
  all: try (destruct H as [H1 H2];
            first [ apply Qle_not_lt in H1; exfalso; apply H1; apply Hlo; reflexivity
                  | apply Qle_not_lt in H2; exfalso; apply H2; apply Hhi; reflexivity ]).
  - split; apply Qnot_lt_le; intro C; [apply (proj2 Hlo) in C | apply (proj2 Hhi) in C]; discriminate C.
  - split; reflexivity.
Qed.

Lemma out_of_range_infinity (s : bool) : out_of_range 400 (S754_infinity s) = true.
Proof. destruct s; reflexivity. Qed.

Lemma out_of_range_nan (size : Z) : out_of_range size NaN = false.
Proof.
  unfold out_of_range, lt, gt, SFltb, NaN.
  destruct (of_int (Z.quot (- size) 2)), (of_int (Z.quot size 2)); reflexivity.
Qed.

Lemma target_accepted_valid (p : Pose2D) :
  wf (x p) -> wf (y p) -> target_accepted p = true <-> valid_point p.
Proof.
  intros Wx Wy. unfold target_accepted, valid_point, out_of_bounds.
  change HSIZE with 400. change VSIZE with 400.
  rewrite !andb_true_iff, negb_true_iff, orb_false_iff.
  split.
  - intros [[Fx Fy] [Ox Oy]]. repeat split; try assumption;
      first [ apply (out_of_range_to_Q (x p) Wx Fx); assumption
            | apply (out_of_range_to_Q (y p) Wy Fy); assumption ].
  - intros (Fx & Fy & Bx & By). repeat split; try assumption.
    + apply (out_of_range_to_Q (x p) Wx Fx); assumption.
    + apply (out_of_range_to_Q (y p) Wy Fy); assumption.
Qed.

(** Without the finiteness test, the bound test alone lets NaN through and
    nothing else. *)
Lemma in_bounds_cases (p : Pose2D) :
  wf (x p) -> wf (y p) ->
  out_of_bounds p = false <->
  (is_nan (x p) = true \/ (isfinite (x p) = true /\ within HSIZE (x p))) /\
  (is_nan (y p) = true \/ (isfinite (y p) = true /\ within VSIZE (y p))).
Proof.
  intros Wx Wy. unfold out_of_bounds.
  change HSIZE with 400. change VSIZE with 400.
  rewrite orb_false_iff.
  assert (H : forall v, wf v ->
            out_of_range 400 v = false <->
            (is_nan v = true \/ (isfinite v = true /\ within 400 v))).
  { intros v Wv. destruct v as [s | s | | s m e].
    - rewrite (out_of_range_to_Q (S754_zero s) Wv eq_refl).
      split; [intros B; right; split; [reflexivity|exact B]|].
      intros [C | [_ B]]; [discriminate|exact B].
    - rewrite out_of_range_infinity. split; [discriminate|].
      intros [C | [C _]]; discriminate.
    - change S754_nan with NaN. rewrite out_of_range_nan.
      split; [left; reflexivity | reflexivity].
    - rewrite (out_of_range_to_Q (S754_finite s m e) Wv eq_refl).
      split; [intros B; right; split; [reflexivity|exact B]|].
      intros [C | [_ B]]; [discriminate|exact B]. }
  rewrite (H _ Wx), (H _ Wy). reflexivity.
Qed.

(** ** Running the program symbolically *)

(** Unfold the program, the monad and the store accessors. *)
Ltac unfold_prog :=
  cbv beta iota zeta delta
    [tick look look_gesture look_pertinence look_montecarlo look_rrtstar
     look_turn go stop bind get modify emit call when assign_state ret exit
     state cmd enable goal robot target landscape matrices gesture obs
     rrtPath cmd_turn srv_rrts_request
     set_state set_cmd set_enable set_goal set_robot set_target
     set_landscape set_matrices set_gesture set_obs set_rrtPath
     set_cmd_turn set_srv_rrts_request
     prepend out_store out_trace exit_code] in *.

(** Compute the tests on [cmd] and [state] and the appended traces. *)
Ltac store_simpl :=
  cbn [WS Obstacles Goal Init Z.eqb Pos.eqb negb andb orb app].

(** Case analysis on the innermost [match] (or [if]) of the goal. *)
Ltac split_match :=
  match goal with
  | |- context [match ?c with _ => _ end] =>
      lazymatch c with
      | context [match _ with _ => _ end] => fail
      | _ => destruct c eqn:?
      end
  end.

(** Replace a store by the record of its fields. *)
Ltac flat s :=
  let c := fresh "c" in let ob := fresh "ob" in let ro := fresh "ro" in
  let ge := fresh "ge" in let ta := fresh "ta" in let gl := fresh "gl" in
  let rp := fresh "rp" in let ma := fresh "ma" in let la := fresh "la" in
  let en := fresh "en" in let ct := fresh "ct" in let rq := fresh "rq" in
  let st := fresh "st" in
  destruct s as [c ob ro ge ta gl rp ma la en ct rq st].

(** Bring a trace to the form [t ++ [e1; ...; en]]. *)
Ltac norm_trace := rewrite <- ?app_assoc; cbn [app]; rewrite ?app_nil_r.

(** Run the program along every branch. *)
Ltac run_prog :=
  unfold_prog; store_simpl; repeat (split_match; unfold_prog; store_simpl).

Lemma target_accepted_corner (p : Pose2D) : corner p -> target_accepted p = true.
Proof.
  destruct p as [a b c]. unfold corner. cbn [x y In].
  intros [[<- | [<- | []]] [<- | [<- | []]]]; reflexivity.
Qed.

Lemma look_gesture_state (srv : Services) (s : Store) (t : trace) (tgt : Pose2D) :
  cli_gest srv (gesture s) = Some tgt ->
  exists s',
    (assign_state 0 ;; look_gesture srv)%prog s t =
      Ret tt s' (t ++ SetState 0 :: CallGest (gesture s) true ::
                   (if isfinite (x tgt) && isfinite (y tgt) then [SetState 1] else []) ++
                   (if out_of_bounds tgt then [SetState 0] else [])) /\
    target s' = tgt /\
    state s' = (if target_accepted tgt then 1 else 0).
Proof.
  flat s. intros Hg. unfold target_accepted.
  unfold_prog. rewrite Hg. unfold_prog.
  destruct (isfinite (x tgt) && isfinite (y tgt)), (out_of_bounds tgt);
    store_simpl; eexists; (split; [|split]);
    try reflexivity; norm_trace; reflexivity.
Qed.

Lemma look_frame (L : Libm) (srv : Services) (s : Store) (t : trace) :
  look L srv s t = prepend t (look L srv s []).
Proof. flat s. run_prog; norm_trace; reflexivity. Qed.

Lemma tick_frame (L : Libm) (srv : Services) (s : Store) (t : trace) :
  tick L srv s t = prepend t (tick L srv s []).
Proof. flat s. run_prog; norm_trace; reflexivity. Qed.

Lemma valid_point_dec (p : Pose2D) :
  wf (x p) -> wf (y p) ->
  (target_accepted p = false <-> ~ valid_point p).
Proof.
  intros Wx Wy. rewrite <- (target_accepted_valid p Wx Wy).
  destruct (target_accepted p); split; congruence.
Qed.

(** C2. For every target returned by the gesture-processing stage, the
    pipeline state goes from Idle (0) to TargetValid (1) iff the target is
    valid: both coordinates finite and within
    [-HSIZE/2, HSIZE/2] x [-VSIZE/2, VSIZE/2], the bounds themselves
    included; otherwise the state is Idle, and the activation ends there:
    no other service is called, nothing is published, and the command tag
    is cleared. *)
Theorem C2_target_gate (L : Libm) (srv : Services) (s : Store) (t : trace)
    (tgt : Pose2D) :
  cli_gest srv (gesture s) = Some tgt -> wf (x tgt) -> wf (y tgt) ->
  (exists s1 t1,
      (assign_state 0 ;; look_gesture srv)%prog s t = Ret tt s1 t1 /\
      target s1 = tgt /\
      (state s1 = 1 <-> valid_point tgt) /\
      (state s1 = 0 <-> ~ valid_point tgt)) /\
  (corner tgt -> valid_point tgt) /\
  (~ valid_point tgt ->
   exists s2 ev,
      look L srv s t = Ret tt s2 (t ++ ev) /\
      state s2 = 0 /\ cmd s2 = 0 /\
      filter is_call ev = [CallGest (gesture s) true] /\
      filter is_publish ev = []).
Proof.
  intros Hg Wx Wy.
  pose proof (target_accepted_valid tgt Wx Wy) as Hv.
  pose proof (valid_point_dec tgt Wx Wy) as Hn.
  split; [|split].
  - destruct (look_gesture_state srv s t tgt Hg) as (s1 & Hrun & Htgt & Hst).
    exists s1. eexists. split; [exact Hrun|]. split; [exact Htgt|].
    rewrite Hst. destruct (target_accepted tgt).
    + split; split; intros H; try reflexivity; try discriminate.
      * apply Hv. reflexivity.
      * exfalso. apply Hn in H. discriminate.
    + split; split; intros H; try reflexivity; try discriminate.
      * apply Hv in H. discriminate.
      * apply Hn. reflexivity.
  - intros Hc. apply Hv. apply target_accepted_corner. exact Hc.
  - intros Hbad. apply Hn in Hbad. unfold target_accepted in Hbad.
    rewrite look_frame. flat s. unfold_prog. rewrite Hg. unfold_prog.
    destruct (isfinite (x tgt) && isfinite (y tgt)), (out_of_bounds tgt);
      try discriminate; store_simpl;
      eexists; eexists; (split; [reflexivity|]); repeat split; reflexivity.
Qed.

(** ** The landscape gate *)

Lemma look_pertinence_state (srv : Services) (s : Store) (t : trace)
    (land : list double) :
  cli_pert srv (target s) (copy_cells (RES * RES * NZ) (matrices s)) = Some land ->
  exists s',
    look_pertinence srv s t =
      Ret tt s' (t ++ [CallPert (target s)
                         (copy_cells (RES * RES * NZ) (matrices s)) true;
                       SetState (if isfinite (nth 0 land zero) then 2 else 0)]) /\
    landscape s' = copy_cells (RES * RES) land /\
    state s' = (if isfinite (nth 0 land zero) then 2 else 0).
Proof.
  flat s. intros Hp. unfold_prog. rewrite Hp. unfold_prog.
  change (nth 0 (copy_cells (RES * RES) land) zero) with (nth 0 land zero).
  destruct (isfinite (nth 0 land zero)); store_simpl;
    eexists; (split; [|split]); try reflexivity;
    norm_trace; reflexivity.
Qed.

(** C7. The fused landscape returned by the pertinence-mapping stage is
    accepted, the pipeline state going from TargetValid to LandscapeValid
    (2), iff its first scalar is finite; otherwise the state is reset to
    Idle (0). No other cell is looked at: two answers with the same first
    scalar leave the same state. *)
Theorem C7_landscape_gate (srv : Services) (s : Store) (t : trace)
    (land : list double) :
  cli_pert srv (target s) (copy_cells (RES * RES * NZ) (matrices s)) = Some land ->
  (RES * RES <= length land)%nat ->
  (exists s' t',
      look_pertinence srv s t = Ret tt s' t' /\
      (state s' = 2 <-> isfinite (nth 0 land zero) = true) /\
      (state s' = 0 <-> isfinite (nth 0 land zero) = false)) /\
  (forall (srv' : Services) (land' : list double),
      cli_pert srv' (target s) (copy_cells (RES * RES * NZ) (matrices s)) = Some land' ->
      (RES * RES <= length land')%nat ->
      nth 0 land' zero = nth 0 land zero ->
      state (out_store (look_pertinence srv' s t)) =
      state (out_store (look_pertinence srv s t))).
Proof.
  intros Hp _. split.
  - destruct (look_pertinence_state srv s t land Hp) as (s' & Hrun & _ & Hst).
    exists s'. eexists. split; [exact Hrun|].
    rewrite Hst. destruct (isfinite (nth 0 land zero));
      split; split; intros H; try reflexivity; discriminate.
  - intros srv' land' Hp' _ Hhd.
    destruct (look_pertinence_state srv s t land Hp) as (s1 & R1 & _ & S1).
    destruct (look_pertinence_state srv' s t land' Hp') as (s2 & R2 & _ & S2).
    rewrite R1, R2. cbn [out_store]. rewrite S1, S2, Hhd. reflexivity.
Qed.

(** ** The goal gate *)

Lemma look_montecarlo_state (srv : Services) (s : Store) (t : trace) (g : Pose2D) :
  cli_mont srv (target s) (copy_cells (RES * RES) (landscape s)) = Some g ->
  exists s',
    look_montecarlo srv s t =
      Ret tt s' (t ++ [CallMont (target s)
                         (copy_cells (RES * RES) (landscape s)) true;
                       SetState (if out_of_bounds g then 0 else 3)]) /\
    goal s' = g /\
    state s' = (if out_of_bounds g then 0 else 3).
Proof.
  flat s. intros Hm. unfold_prog. rewrite Hm. unfold_prog.
  destruct (out_of_bounds g); store_simpl;
    eexists; (split; [|split]); try reflexivity;
    norm_trace; reflexivity.
Qed.

(** On goals without NaN the bound test of the Monte Carlo stage is the
    validity policy. *)
Lemma montecarlo_gate_without_nan (srv : Services) (s : Store) (t : trace)
    (g : Pose2D) :
  cli_mont srv (target s) (copy_cells (RES * RES) (landscape s)) = Some g ->
  wf (x g) -> wf (y g) -> is_nan (x g) = false -> is_nan (y g) = false ->
  state (out_store (look_montecarlo srv s t)) = 3 <-> valid_point g.
Proof.
  intros Hm Wx Wy Nx Ny.
  destruct (look_montecarlo_state srv s t g Hm) as (s' & -> & _ & Hst).
  cbn [out_store]. rewrite Hst.
  pose proof (in_bounds_cases g Wx Wy) as Hb.
  unfold valid_point. rewrite Nx, Ny in Hb.
  destruct (out_of_bounds g); split; intros H; try reflexivity; try discriminate.
  - destruct H as (Fx & Fy & Bx & By).
    assert (C : true = false).
    { apply (proj2 Hb). split; right; split; assumption. }
    discriminate C.
  - destruct (proj1 Hb eq_refl) as [[C | [Fx Bx]] [C' | [Fy By]]];
      try discriminate. split; [|split; [|split]]; assumption.
Qed.

Lemma valid_point_not_nan (p : Pose2D) :
  valid_point p -> is_nan (x p) = false /\ is_nan (y p) = false.
Proof.
  intros (Fx & Fy & _). destruct (x p), (y p); try discriminate; split; reflexivity.
Qed.

(** C1 (what the code does with a NaN goal). A goal whose [x] is NaN and
    whose [y] passes the bound test is not valid, and yet the Monte Carlo
    stage takes the pipeline state from LandscapeValid to GoalValid (3):
    the stage tests the bounds only, and every comparison with NaN is
    false. *)
Theorem C1_nan_goal_accepted (srv : Services) (s : Store) (t : trace)
    (g : Pose2D) :
  cli_mont srv (target s) (copy_cells (RES * RES) (landscape s)) = Some g ->
  x g = NaN -> out_of_range VSIZE (y g) = false ->
  ~ valid_point g /\
  exists s',
    look_montecarlo srv s t =
      Ret tt s' (t ++ [CallMont (target s)
                         (copy_cells (RES * RES) (landscape s)) true;
                       SetState 3]) /\
    goal s' = g /\ state s' = 3.
Proof.
  intros Hm Hx Hy. split.
  - intros Hv. apply valid_point_not_nan in Hv as [Nx _].
    rewrite Hx in Nx. discriminate.
  - destruct (look_montecarlo_state srv s t g Hm) as (s' & Hrun & Hg & Hst).
    assert (Hb : out_of_bounds g = false).
    { unfold out_of_bounds. rewrite Hx, out_of_range_nan, Hy. reflexivity. }
    rewrite Hb in Hst, Hrun. exists s'. repeat split; assumption.
Qed.

(** With the goal (NaN, NaN) a "look" goes all the way: the planner is
    called, the path published, and the turn command is NaN. *)
Example nan_goal_goes_through (L : Libm) :
  let o := look L (look_services (point2d NaN NaN)) (look_store zero_pose2d) [] in
  state_history (out_trace o) = [0; 1; 2; 3; 4] /\
  turn_publishes (out_trace o) = [NaN].
Proof. split; vm_compute; reflexivity. Qed.

(** ** The history of the pipeline state in one activation *)

Ltac not_in_history H :=
  cbn [state_history In] in H;
  repeat (destruct H as [H | H]; [discriminate H|]);
  try contradiction.

Lemma copy_points_id (path : list Vector3) :
  map (fun p => {| vec_x := vec_x p; vec_y := vec_y p; vec_z := vec_z p |}) path
  = path.
Proof.
  induction path as [|p path IH]; [reflexivity|].
  cbn [map]. rewrite IH. destruct p. reflexivity.
Qed.

(** In every "look" activation the assignments to [state] start with 0,
    each one advances by exactly one stage or resets to 0, and 4 occurs
    only at the end of the history 0, 1, 2, 3, 4, every service having
    answered and every check of the code having passed. *)
Lemma pipeline_history (L : Libm) (srv : Services) (s : Store) (t : trace) :
  exists ev,
    out_trace (look L srv s t) = t ++ ev /\
    (exists h, state_history ev = 0 :: h /\ stepwise 0 h = true) /\
    state (out_store (look L srv s t)) = last (state_history ev) 0 /\
    (In 4 (state_history ev) ->
     state_history ev = [0; 1; 2; 3; 4] /\
     exists tgt mats land lreq g req path,
       ev = [SetState 0; CallGest (gesture s) true; SetState 1;
             CallPert tgt mats true; SetState 2;
             CallMont tgt lreq true; SetState 3;
             CallRrts req true; PubPath path; SetState 4;
             PubTurn (dtheta_double L g (robot s))] /\
       cli_gest srv (gesture s) = Some tgt /\
       target_accepted tgt = true /\
       cli_pert srv tgt mats = Some land /\
       isfinite (nth 0 land zero) = true /\
       cli_mont srv tgt lreq = Some g /\
       out_of_bounds g = false /\
       cli_rrts srv req = Some path).
Proof.
  rewrite look_frame. flat s. run_prog.
  all: eexists; split; [reflexivity|].
  all: split; [eexists; split; reflexivity|].
  all: split; [reflexivity|].
  all: intros H; try (exfalso; not_in_history H; fail).
  split; [reflexivity|].
  do 7 eexists. rewrite copy_points_id.
  split; [reflexivity|].
  change (nth 0 (copy_cells (RES * RES) l) zero) with (nth 0 l zero) in Heqb1.
  apply negb_false_iff in Heqb1.
  unfold target_accepted. rewrite Heqb, Heqb0.
  repeat split; eassumption.
Qed.

(** ** Failed service calls *)

Lemma all_calls_ok_app (t u : trace) :
  all_calls_ok (t ++ u) = all_calls_ok t && all_calls_ok u.
Proof. apply forallb_app. Qed.

Ltac last_event :=
  match goal with
  | |- exists ev e, ?tr = ev ++ [e] /\ _ =>
      exists (removelast tr), (last tr (SetState 0))
  end.

Lemma tick_turn_result (L : Libm) (srv : Services) (s : Store) :
  turn_result (tick L srv s []).
Proof.
  flat s. unfold turn_result. run_prog.
  all: try reflexivity.
  all: split; [reflexivity|]; last_event; repeat split; reflexivity.
Qed.

Lemma startup_ok (cli_spat : SpatialReasoner) (s : Store) (t : trace)
    (response : list double) :
  cli_spat (obs s) obsdim = Some response ->
  exists s',
    startup cli_spat s t = Ret tt s' (t ++ [CallSpat (obs s) obsdim true]) /\
    Obstacles (srv_rrts_request s') =
      Obstacles (srv_rrts_request s) ++
      [{| center_x := x (obs s); center_y := y (obs s); center_z := zero;
          size_x := of_int 80; size_y := of_int 80; size_z := zero |}] /\
    cmd s' = cmd s.
Proof.
  flat s. intros Hs. unfold startup. unfold_prog. fold obsdim. rewrite Hs.
  unfold_prog. eexists. repeat split; reflexivity.
Qed.

Lemma startup_failed (cli_spat : SpatialReasoner) (s : Store) (t : trace) :
  cli_spat (obs s) obsdim = None ->
  exists s',
    startup cli_spat s t = Exit 1 s' (t ++ [CallSpat (obs s) obsdim false]).
Proof.
  flat s. intros Hs. unfold startup. unfold_prog. fold obsdim. rewrite Hs.
  unfold_prog. eexists. reflexivity.
Qed.

Lemma loop_ends_well (L : Libm) (turns : list (Services * list msg)) :
  forall (s : Store) (t : trace),
    all_calls_ok t = true -> ends_well (loop L turns s t).
Proof.
  induction turns as [|[srv pending] rest IH]; intros s t Ht.
  - exists 0, s, t. split; [reflexivity|]. left. split; [reflexivity|exact Ht].
  - cbn [loop]. unfold bind at 1. rewrite tick_frame.
    pose proof (tick_turn_result L srv s) as Hr.
    destruct (tick L srv s []) as [[] s' ev | c s' ev']; cbn [prepend turn_result] in *.
    + unfold bind, spinOnce, modify. apply IH.
      rewrite all_calls_ok_app, Ht, Hr. reflexivity.
    + destruct Hr as (-> & ev & e & -> & He & Hev & _).
      exists 1, s', (t ++ ev ++ [e]). split; [reflexivity|]. right.
      split; [reflexivity|]. exists (t ++ ev), e.
      rewrite app_assoc, all_calls_ok_app, Ht, Hev. repeat split; assumption.
Qed.

(** Each stage ends the process with status 1 when its service fails. *)
Lemma stage_failures (srv : Services) (s : Store) (t : trace) :
  (cli_gest srv (gesture s) = None ->
   look_gesture srv s t = Exit 1 s (t ++ [CallGest (gesture s) false])) /\
  (cli_pert srv (target s) (copy_cells (RES * RES * NZ) (matrices s)) = None ->
   look_pertinence srv s t =
     Exit 1 s (t ++ [CallPert (target s)
                       (copy_cells (RES * RES * NZ) (matrices s)) false])) /\
  (cli_mont srv (target s) (copy_cells (RES * RES) (landscape s)) = None ->
   look_montecarlo srv s t =
     Exit 1 s (t ++ [CallMont (target s)
                       (copy_cells (RES * RES) (landscape s)) false])) /\
  (forall req : RrtRequest,
      req = {| WS := WS (srv_rrts_request s);
               Obstacles := Obstacles (srv_rrts_request s);
               Goal := {| center_x := x (goal s); center_y := y (goal s);
                          center_z := zero; size_x := of_int 20;
                          size_y := of_int 20; size_z := zero |};
               Init := {| vec_x := x (robot s); vec_y := y (robot s);
                          vec_z := zero |} |} ->
      cli_rrts srv req = None ->
      look_rrtstar srv s t =
        Exit 1 (set_srv_rrts_request req s) (t ++ [CallRrts req false])).
Proof.
  flat s. unfold_prog. repeat split.
  - intros ->. reflexivity.
  - intros ->. reflexivity.
  - intros ->. reflexivity.
  - intros req -> ->. reflexivity.
Qed.

(** C4. Whatever the services answer and whatever is delivered, the
    process ends in one of two ways: with status 0, the loop having ended
    and no service call having failed; or with status 1, the last thing it
    did being a service call that failed, so that nothing is published
    after it. A failed call in a "look" activation ends the process with
    status 1, the activation having published nothing; a failed call to
    the spatial reasoner at start-up ends it with status 1 before anything
    else happens. *)
Theorem C4_failed_call_is_fatal (L : Libm) (cli_spat : SpatialReasoner)
    (turns : list (Services * list msg)) :
  ends_well (main L cli_spat turns) /\
  (cli_spat zero_pose2d [of_int 80; of_int 80] = None ->
   exists s,
     main L cli_spat turns =
       Exit 1 s [CallSpat zero_pose2d [of_int 80; of_int 80] false]) /\
  (forall (srv : Services) (s : Store) (t : trace) (c : Z),
      exit_code (tick L srv s t) = Some c ->
      c = 1 /\
      exists ev e,
        out_trace (tick L srv s t) = t ++ ev ++ [e] /\
        failed_call e = true /\ all_calls_ok ev = true /\
        filter is_publish ev = []) /\
  (forall (srv : Services) (s : Store) (t : trace),
      (cli_gest srv (gesture s) = None ->
       exit_code (look_gesture srv s t) = Some 1) /\
      (cli_pert srv (target s) (copy_cells (RES * RES * NZ) (matrices s)) = None ->
       exit_code (look_pertinence srv s t) = Some 1) /\
      (cli_mont srv (target s) (copy_cells (RES * RES) (landscape s)) = None ->
       exit_code (look_montecarlo srv s t) = Some 1) /\
      ((forall req, cli_rrts srv req = None) ->
       exit_code (look_rrtstar srv s t) = Some 1)).
Proof.
  split; [|split; [|split]].
  - unfold main. unfold bind.
    destruct (cli_spat (obs initial_store) obsdim) as [response|] eqn:Hs.
    + destruct (startup_ok cli_spat initial_store [] response Hs) as (s' & -> & _).
      apply loop_ends_well. reflexivity.
    + destruct (startup_failed cli_spat initial_store [] Hs) as (s' & ->).
      exists 1, s'. eexists. split; [reflexivity|]. right. split; [reflexivity|].
      eexists [], _. repeat split; reflexivity.
  - intros Hf. unfold main. unfold bind.
    destruct (startup_failed cli_spat initial_store [] Hf) as (s' & ->).
    exists s'. reflexivity.
  - intros srv s t c. rewrite tick_frame.
    pose proof (tick_turn_result L srv s) as Hr.
    destruct (tick L srv s []) as [[] s' ev | c' s' ev']; cbn [prepend exit_code out_trace turn_result] in *.
    + discriminate.
    + intros [= <-]. destruct Hr as (-> & ev & e & -> & He & Hev & Hp).
      split; [reflexivity|]. exists ev, e. repeat split; assumption.
  - intros srv s t.
    destruct (stage_failures srv s t) as (Hg & Hp & Hm & Hr).
    split; [intros H; rewrite (Hg H); reflexivity|].
    split; [intros H; rewrite (Hp H); reflexivity|].
    split; [intros H; rewrite (Hm H); reflexivity|].
    intros H. rewrite (Hr _ eq_refl (H _)). reflexivity.
Qed.

(** ** The end of an activation *)

(** X12. A "look" activation that returns leaves the command tag cleared
    and the pipeline state at 0 when it published nothing, at 4 when it
    published. Every activation starts by setting the state to 0, and what
    it does depends on nothing an earlier activation left behind: with
    another pipeline state, target, goal, landscape, path and turn command
    in the store it makes the same calls and publishes, ends the same way
    and leaves the same state and command tag. *)
Theorem X12_activation_is_fresh (L : Libm) (srv : Services) (s : Store)
    (t : trace) :
  cmd s = 1 ->
  (exists ev,
      out_trace (tick L srv s t) = t ++ SetState 0 :: ev /\
      (exit_code (tick L srv s t) = None ->
       cmd (out_store (tick L srv s t)) = 0 /\
       (filter is_publish ev = [] ->
        state (out_store (tick L srv s t)) = 0) /\
       (filter is_publish ev <> [] ->
        state (out_store (tick L srv s t)) = 4))) /\
  (forall n tg gl la rp ct,
      let s2 := with_leftovers n tg gl la rp ct s in
      out_trace (tick L srv s2 t) = out_trace (tick L srv s t) /\
      exit_code (tick L srv s2 t) = exit_code (tick L srv s t) /\
      state (out_store (tick L srv s2 t)) = state (out_store (tick L srv s t)) /\
      cmd (out_store (tick L srv s2 t)) = cmd (out_store (tick L srv s t))).
Proof.
  intros Hc. split.
  - rewrite tick_frame. flat s. unfold_prog. subst c. run_prog.
    all: eexists; split; [reflexivity|].
    all: intros Hx; try discriminate Hx.
    all: split; [reflexivity|].
    all: cbn [filter is_publish]; split; intros H;
      try reflexivity; try discriminate H; try (exfalso; apply H; reflexivity).
  - intros n tg gl la rp ct s2. subst s2. unfold with_leftovers.
    flat s. unfold_prog. subst c. run_prog.
    all: repeat split; reflexivity.
Qed.

(** ** The motion dispatcher *)

Lemma tick_go (L : Libm) (srv : Services) (s : Store) (t : trace) :
  cmd s = 2 ->
  tick L srv s t = Ret tt (set_cmd 0 (set_enable true s)) (t ++ [PubEnable true]).
Proof. flat s. unfold_prog. intros ->. reflexivity. Qed.

Lemma tick_stop (L : Libm) (srv : Services) (s : Store) (t : trace) :
  cmd s = 3 ->
  tick L srv s t = Ret tt (set_cmd 0 (set_enable false s)) (t ++ [PubEnable false]).
Proof. flat s. unfold_prog. intros ->. reflexivity. Qed.

Lemma tick_other (L : Libm) (srv : Services) (s : Store) (t : trace) :
  cmd s <> 1 -> cmd s <> 2 -> cmd s <> 3 ->
  tick L srv s t = Ret tt s t.
Proof.
  flat s. unfold_prog. intros H1 H2 H3.
  apply Z.eqb_neq in H1, H2, H3. rewrite H1, H2, H3. reflexivity.
Qed.

(** C9. On command tag 2 ("go") the enable flag is set to true and
    published, on tag 3 ("stop") it is set to false and published, and in
    both cases the tag is cleared right after; a tag other than 1, 2, 3
    changes nothing and publishes nothing. "go" then "stop", each
    delivered before a turn of the loop, give exactly two publishes of the
    flag, true then false, and leave the tag cleared. *)
Theorem C9_motion_dispatch (L : Libm) (srv : Services) (s : Store) (t : trace) :
  (cmd s = 2 ->
   tick L srv s t =
     Ret tt (set_cmd 0 (set_enable true s)) (t ++ [PubEnable true])) /\
  (cmd s = 3 ->
   tick L srv s t =
     Ret tt (set_cmd 0 (set_enable false s)) (t ++ [PubEnable false])) /\
  (cmd s <> 1 -> cmd s <> 2 -> cmd s <> 3 -> tick L srv s t = Ret tt s t) /\
  (cmd s = 0 ->
   forall srv1 srv2 : Services,
   exists s',
     loop L [(srv, [MCommand 2]); (srv1, [MCommand 3]); (srv2, [])] s t =
       Exit 0 s' (t ++ [PubEnable true; PubEnable false]) /\
     cmd s' = 0 /\ enable s' = false).
Proof.
  split; [exact (tick_go L srv s t)|].
  split; [exact (tick_stop L srv s t)|].
  split; [exact (tick_other L srv s t)|].
  intros Hc srv1 srv2. cbn [loop]. unfold bind, spinOnce, modify.
  rewrite (tick_other L srv s t) by lia.
  cbn [fold_left deliver].
  rewrite tick_go by reflexivity.
  cbn [fold_left deliver].
  rewrite tick_stop by reflexivity.
  cbn [fold_left]. unfold exit.
  eexists. split; [rewrite <- app_assoc; reflexivity|]. split; reflexivity.
Qed.

(** ** The obstacle region *)

Lemma rrts_requests_app (t u : trace) :
  rrts_requests (t ++ u) = rrts_requests t ++ rrts_requests u.
Proof.
  induction t as [|e t IH]; [reflexivity|].
  destruct e; cbn [app rrts_requests]; rewrite IH; reflexivity.
Qed.

(** A turn of the loop sends the planner the obstacles of the store and
    leaves them as they are. *)
Lemma tick_obstacles (L : Libm) (srv : Services) (s : Store) :
  Forall (fun req => Obstacles req = Obstacles (srv_rrts_request s))
         (rrts_requests (out_trace (tick L srv s []))) /\
  Obstacles (srv_rrts_request (out_store (tick L srv s []))) =
  Obstacles (srv_rrts_request s).
Proof.
  flat s. run_prog.
  all: cbn [rrts_requests]; split; [repeat constructor | reflexivity].
Qed.

Lemma deliver_obstacles (pending : list msg) (s : Store) :
  Obstacles (srv_rrts_request (fold_left (fun s' m => deliver m s') pending s)) =
  Obstacles (srv_rrts_request s).
Proof.
  revert s. induction pending as [|m pending IH]; intros s; [reflexivity|].
  cbn [fold_left]. rewrite IH. destruct m; reflexivity.
Qed.

Lemma loop_obstacles (L : Libm) (turns : list (Services * list msg)) :
  forall (s : Store) (t : trace),
    Forall (fun req => Obstacles req = Obstacles (srv_rrts_request s))
           (rrts_requests t) ->
    Forall (fun req => Obstacles req = Obstacles (srv_rrts_request s))
           (rrts_requests (out_trace (loop L turns s t))).
Proof.
  induction turns as [|[srv pending] rest IH]; intros s t Ht.
  - exact Ht.
  - cbn [loop]. unfold bind at 1. rewrite tick_frame.
    destruct (tick_obstacles L srv s) as [Hreq Hst].
    destruct (tick L srv s []) as [[] s' ev | c s' ev]; cbn [prepend out_trace out_store] in *.
    + unfold bind, spinOnce, modify.
      rewrite <- Hst, <- (deliver_obstacles pending s').
      apply IH. rewrite deliver_obstacles, Hst, rrts_requests_app.
      apply Forall_app. split; assumption.
    + rewrite rrts_requests_app. apply Forall_app. split; assumption.
Qed.

(** C10. The obstacle region of every request sent to the RRT* planner is
    the one built before the loop, from the obstacle pose as it is before
    any delivery has been processed: the box centred at (0,0) of size
    80 x 80. Whatever is delivered afterwards, obstacle poses included, and
    whatever the services answer, every request carries exactly this one
    region. The spatial reasoner is asked about the same pose (0,0,0). *)
Theorem C10_obstacle_region_fixed (L : Libm) (cli_spat : SpatialReasoner)
    (turns : list (Services * list msg)) :
  (forall req : RrtRequest,
      In req (rrts_requests (out_trace (main L cli_spat turns))) ->
      Obstacles req = [startup_obstacle]) /\
  (exists t, out_trace (main L cli_spat turns) =
             CallSpat zero_pose2d obsdim
               (match cli_spat zero_pose2d obsdim with
                | Some _ => true
                | None => false
                end) :: t).
Proof.
  unfold main. unfold bind.
  destruct (cli_spat (obs initial_store) obsdim) as [response|] eqn:Hs.
  - destruct (startup_ok cli_spat initial_store [] response Hs)
      as (s' & -> & Hobs & _).
    change (cli_spat zero_pose2d obsdim) with (cli_spat (obs initial_store) obsdim).
    rewrite Hs. split.
    + apply Forall_forall.
      change [startup_obstacle] with
        (Obstacles (srv_rrts_request initial_store) ++
         [{| center_x := x (obs initial_store);
             center_y := y (obs initial_store); center_z := zero;
             size_x := of_int 80; size_y := of_int 80; size_z := zero |}]).
      rewrite <- Hobs. apply loop_obstacles. constructor.
    + clear Hobs. revert s'.
      assert (Hpre : forall (ts : list (Services * list msg)) s0 t0 e,
                 exists t1, out_trace (loop L ts s0 (e :: t0)) = e :: t1).
      { induction ts as [|[srv pending] rest IH]; intros s0 t0 e.
        - exists t0. reflexivity.
        - cbn [loop]. unfold bind at 1. rewrite tick_frame.
          destruct (tick L srv s0 []) as [[] s1 ev | c s1 ev]; cbn [prepend].
          + unfold bind, spinOnce, modify. cbn [app]. apply IH.
          + eexists. reflexivity. }
      intros s'. apply Hpre.
  - destruct (startup_failed cli_spat initial_store [] Hs) as (s' & ->).
    change (cli_spat zero_pose2d obsdim) with (cli_spat (obs initial_store) obsdim).
    rewrite Hs. split.
    + intros req [].
    + eexists. reflexivity.
Qed.

(** ** The heading formula over the reals *)

Section RealHeading.

Local Open Scope R_scope.

Lemma atan_neg (u : R) : u < 0 -> atan u < 0.
Proof. intros H. rewrite <- atan_0. apply atan_increasing. exact H. Qed.

Lemma atan_pos (u : R) : 0 < u -> 0 < atan u.
Proof. intros H. rewrite <- atan_0. apply atan_increasing. exact H. Qed.

Lemma atan2_range (a b : R) : - PI < Real.atan2 a b <= PI.
Proof.
  pose proof PI_RGT_0 as Hpi.
  unfold Real.atan2.
  destruct (total_order_T 0 b) as [[Hb | Hb] | Hb].
  - pose proof (atan_bound (a / b)) as [Hl Hu]. Lra.lra.
  - destruct (total_order_T 0 a) as [[Ha | Ha] | Ha]; Lra.lra.
  - pose proof (atan_bound (a / b)) as [Hl Hu].
    destruct (Rle_dec 0 a) as [Ha | Ha].
    + destruct (Req_dec a 0) as [-> | Hne].
      * unfold Rdiv. rewrite Rmult_0_l, atan_0. Lra.lra.
      * assert (Hq : a / b < 0).
        { replace (a / b) with (- (a * / (- b))).
          - assert (0 < a * / (- b)); [|Lra.lra].
            apply Rmult_lt_0_compat; [Lra.lra|]. apply Rinv_0_lt_compat. Lra.lra.
          - rewrite Rinv_opp. unfold Rdiv. ring. }
        pose proof (atan_neg _ Hq). Lra.lra.
    + assert (Hq : 0 < a / b).
      { replace (a / b) with ((- a) * / (- b)).
        - apply Rmult_lt_0_compat; [Lra.lra|]. apply Rinv_0_lt_compat. Lra.lra.
        - rewrite Rinv_opp. unfold Rdiv. ring. }
      pose proof (atan_pos _ Hq). Lra.lra.
Qed.

Lemma atan2_zero_pos (b : R) : 0 < b -> Real.atan2 0 b = 0.
Proof.
  intros Hb. unfold Real.atan2.
  destruct (total_order_T 0 b) as [[H | H] | H]; try Lra.lra.
  unfold Rdiv. rewrite Rmult_0_l. apply atan_0.
Qed.

Lemma atan2_pos_zero (a : R) : 0 < a -> Real.atan2 a 0 = PI / 2.
Proof.
  intros Ha. unfold Real.atan2.
  destruct (total_order_T 0 0) as [[H | H] | H]; try Lra.lra.
  destruct (total_order_T 0 a) as [[H' | H'] | H']; try Lra.lra.
Qed.

Lemma real_dtheta_range (gx gy rx ry rt : R) :
  - PI < Real.dtheta gx gy rx ry rt <= PI.
Proof. apply atan2_range. Qed.

Lemma real_dtheta_east : Real.dtheta 100 0 0 0 0 = 0.
Proof.
  unfold Real.dtheta, dtheta.
  replace (0 - 0) with 0 by ring. replace (100 - 0) with 100 by ring.
  rewrite (atan2_zero_pos 100) by Lra.lra.
  replace (0 - 0) with 0 by ring.
  rewrite sin_0, cos_0. apply atan2_zero_pos. Lra.lra.
Qed.

Lemma real_dtheta_north : Real.dtheta 0 100 0 0 0 = PI / 2.
Proof.
  unfold Real.dtheta, dtheta.
  replace (0 - 0) with 0 by ring. replace (100 - 0) with 100 by ring.
  rewrite (atan2_pos_zero 100) by Lra.lra.
  replace (PI / 2 - 0) with (PI / 2) by ring.
  rewrite sin_PI2, cos_PI2. apply atan2_pos_zero. Lra.lra.
Qed.

End RealHeading.

(** ** The heading in double arithmetic: NaN goes through *)

Lemma sub_nan_l (a : double) : sub NaN a = NaN.
Proof. reflexivity. Qed.

Lemma sub_nan_r (a : double) : sub a NaN = NaN.
Proof. destruct a; reflexivity. Qed.

Lemma atan2_nan_l (L : Libm) (a : double) : Cmath.atan2 L NaN a = NaN.
Proof. reflexivity. Qed.

Lemma atan2_nan_r (L : Libm) (a : double) : Cmath.atan2 L a NaN = NaN.
Proof. unfold Cmath.atan2. rewrite orb_true_r. reflexivity. Qed.

Lemma normalize_nan (L : Libm) :
  Cmath.atan2 L (Cmath.sin L NaN) (Cmath.cos L NaN) = NaN.
Proof. reflexivity. Qed.

Lemma dtheta_double_nan (L : Libm) (g r : Pose2D) :
  is_nan (x g) = true \/ is_nan (y g) = true \/
  is_nan (x r) = true \/ is_nan (y r) = true \/ is_nan (theta r) = true ->
  dtheta_double L g r = NaN.
Proof.
  assert (E : forall a, is_nan a = true -> a = NaN)
    by (intros a; destruct a; try discriminate; reflexivity).
  unfold dtheta_double, dtheta.
  intros [H | [H | [H | [H | H]]]]; apply E in H; rewrite H;
    rewrite ?sub_nan_l, ?sub_nan_r, ?(atan2_nan_l L), ?(atan2_nan_r L),
            ?sub_nan_l, ?sub_nan_r;
    try exact (normalize_nan L).
Qed.

Lemma nan_not_in_turn_range : ~ in_turn_range NaN.
Proof. intros [H _]. discriminate H. Qed.

(** ** Rounding never gives NaN, and no infinity below 2^1023 *)

Lemma shr_1_bounds (mrs : shr_record) :
  0 <= shr_m mrs ->
  0 <= shr_m (shr_1 mrs) /\ 2 * shr_m (shr_1 mrs) <= shr_m mrs.
Proof.
  destruct mrs as [m r s]. cbn [shr_m]. intros Hm.
  destruct m as [|[p|p|]|p]; cbn [shr_1 shr_m]; lia.
Qed.

Lemma iter_shr_1_bounds (n : positive) :
  forall mrs : shr_record,
    0 <= shr_m mrs ->
    0 <= shr_m (iter_pos shr_1 n mrs) /\
    shr_m (iter_pos shr_1 n mrs) * 2 ^ Zpos n <= shr_m mrs.
Proof.
  induction n as [n IH | n IH |]; intros mrs Hm; cbn [iter_pos].
  - destruct (shr_1_bounds mrs Hm) as [H0 H1].
    destruct (IH _ H0) as [H2 H3]. destruct (IH _ H2) as [H4 H5].
    split; [exact H4|].
    change (Z.pos n~1) with (2 * Z.pos n + 1).
    rewrite Z.pow_add_r, Z.pow_mul_r by lia.
    change (2 ^ 2) with 4. change (2 ^ 1) with 2.
    assert (Hp : 0 < 2 ^ Zpos n) by (apply Z.pow_pos_nonneg; lia).
    replace (4 ^ Zpos n) with (2 ^ Zpos n * 2 ^ Zpos n)
      by (change 4 with (2 * 2); rewrite Z.pow_mul_l; reflexivity).
    nia.
  - destruct (IH _ Hm) as [H2 H3]. destruct (IH _ H2) as [H4 H5].
    split; [exact H4|].
    change (Z.pos n~0) with (2 * Z.pos n).
    rewrite Z.pow_mul_r by lia. change (2 ^ 2) with 4.
    assert (Hp : 0 < 2 ^ Zpos n) by (apply Z.pow_pos_nonneg; lia).
    replace (4 ^ Zpos n) with (2 ^ Zpos n * 2 ^ Zpos n)
      by (change 4 with (2 * 2); rewrite Z.pow_mul_l; reflexivity).
    nia.
  - destruct (shr_1_bounds mrs Hm) as [H0 H1]. split; [exact H0|].
    change (2 ^ 1) with 2. lia.
Qed.

Lemma Zdigits2_nonneg (m : Z) : 0 <= Zdigits2 m.
Proof. destruct m; cbn [Zdigits2]; lia. Qed.

Lemma Zdigits2_lt (m : Z) : 0 <= m -> m < 2 ^ Zdigits2 m.
Proof.
  destruct m as [|p|p]; cbn [Zdigits2]; intros H; try lia.
  apply digits2_pos_bounds.
Qed.

Lemma Zdigits2_le (m k : Z) : 0 <= m -> 0 <= k -> m < 2 ^ k -> Zdigits2 m <= k.
Proof.
  destruct m as [|p|p]; cbn [Zdigits2]; intros Hm Hk H; try lia.
  destruct (digits2_pos_bounds p) as [Hlo _].
  assert (Hlt : 2 ^ (Zpos (digits2_pos p) - 1) < 2 ^ k) by lia.
  apply Z.pow_lt_mono_r_iff in Hlt; lia.
Qed.

Lemma Zdigits2_mono (a b : Z) : 0 <= a -> a <= b -> Zdigits2 a <= Zdigits2 b.
Proof.
  intros Ha Hab. apply Zdigits2_le; [exact Ha | apply Zdigits2_nonneg |].
  pose proof (Zdigits2_lt b). lia.
Qed.

Lemma Zdigits2_succ (m : Z) : 0 <= m -> Zdigits2 (m + 1) <= Zdigits2 m + 1.
Proof.
  intros Hm. pose proof (Zdigits2_nonneg m) as Hd.
  apply Zdigits2_le; [lia | lia |].
  pose proof (Zdigits2_lt m Hm). rewrite Z.pow_add_r by lia.
  change (2 ^ 1) with 2. lia.
Qed.

Lemma round_nearest_even_bounds (m : Z) (l : location) :
  m <= round_nearest_even m l <= m + 1.
Proof.
  destruct l as [|[| |]]; cbn [round_nearest_even]; try lia.
  destruct (Z.even m); lia.
Qed.

Lemma shr_record_of_loc_m (m : Z) (l : location) :
  shr_m (shr_record_of_loc m l) = m.
Proof. destruct l as [|[| |]]; reflexivity. Qed.

(** One [shr_fexp]: the mantissa stays non-negative, the exponent is the
    larger of [e] and the canonical one, and mantissa plus one has at most
    one digit more than the value had. *)
Lemma shr_fexp_bounds (m e : Z) (l : location) :
  0 <= m ->
  let D := Zdigits2 m + e in
  0 <= shr_m (fst (shr_fexp 53 1024 m e l)) /\
  snd (shr_fexp 53 1024 m e l) = Z.max e (fexp 53 1024 D) /\
  Zdigits2 (shr_m (fst (shr_fexp 53 1024 m e l)) + 1) +
    snd (shr_fexp 53 1024 m e l) <= Z.max D (-1074) + 1.
Proof.
  intros Hm D. unfold shr_fexp, shr. fold D.
  pose proof (Zdigits2_nonneg m) as Hd.
  pose proof (Zdigits2_lt m Hm) as Hlt.
  assert (Hf : fexp 53 1024 D = Z.max (D - 53) (-1074)) by reflexivity.
  destruct (fexp 53 1024 D - e) as [|n|n] eqn:Hn; cbn [fst snd].
  - rewrite shr_record_of_loc_m. split; [exact Hm|]. split; [lia|].
    pose proof (Zdigits2_succ m Hm). unfold D in *. lia.
  - assert (H0 : 0 <= shr_m (shr_record_of_loc m l))
      by (rewrite shr_record_of_loc_m; exact Hm).
    destruct (iter_shr_1_bounds n _ H0) as [H1 H2].
    rewrite shr_record_of_loc_m in H2.
    set (m' := shr_m (iter_pos shr_1 n (shr_record_of_loc m l))) in *.
    split; [exact H1|]. split; [lia|].
    assert (Hp : 0 < 2 ^ Zpos n) by (apply Z.pow_pos_nonneg; lia).
    destruct (Z_le_gt_dec (Zpos n) (Zdigits2 m)) as [Hle | Hgt].
    + assert (Hm' : m' < 2 ^ (Zdigits2 m - Zpos n)).
      { assert (E : 2 ^ Zdigits2 m = 2 ^ (Zdigits2 m - Zpos n) * 2 ^ Zpos n).
        { rewrite <- Z.pow_add_r by lia. f_equal. lia. }
        rewrite E in Hlt. nia. }
      assert (Zdigits2 (m' + 1) <= Zdigits2 m - Zpos n + 1).
      { apply Zdigits2_le; [lia | lia |].
        rewrite Z.pow_add_r by lia. change (2 ^ 1) with 2. lia. }
      unfold D in *. lia.
    + assert (Hz : m' = 0).
      { assert (2 ^ Zdigits2 m <= 2 ^ Zpos n) by (apply Z.pow_le_mono_r; lia).
        nia. }
      rewrite Hz. change (Zdigits2 (0 + 1)) with 1. unfold D in *. lia.
  - rewrite shr_record_of_loc_m. split; [exact Hm|]. split; [lia|].
    pose proof (Zdigits2_succ m Hm). unfold D in *. lia.
Qed.

Lemma binary_round_aux_cases (s : bool) (m e : Z) (l : location) :
  0 <= m ->
  is_nan (binary_round_aux 53 1024 s m e l) = false /\
  (e <= 971 -> Zdigits2 m + e <= 1023 ->
   isfinite (binary_round_aux 53 1024 s m e l) = true).
Proof.
  intros Hm. unfold binary_round_aux.
  destruct (shr_fexp_bounds m e l Hm) as (H1 & H2 & H3).
  destruct (shr_fexp 53 1024 m e l) as [mrs' e'] eqn:E1. cbn [fst snd] in *.
  set (m2 := round_nearest_even (shr_m mrs') (loc_of_shr_record mrs')).
  pose proof (round_nearest_even_bounds (shr_m mrs') (loc_of_shr_record mrs')) as Hr.
  fold m2 in Hr.
  assert (Hm2 : 0 <= m2) by lia.
  destruct (shr_fexp_bounds m2 e' loc_Exact Hm2) as (K1 & K2 & _).
  destruct (shr_fexp 53 1024 m2 e' loc_Exact) as [mrs'' e''] eqn:E2.
  cbn [fst snd] in *.
  destruct (shr_m mrs'') as [|p|p] eqn:E3; try lia.
  - split; [reflexivity|]. intros; reflexivity.
  - split; [destruct (e'' <=? 1024 - 53); reflexivity|].
    intros He HD.
    assert (Hd2 : Zdigits2 m2 <= Zdigits2 (shr_m mrs' + 1))
      by (apply Zdigits2_mono; lia).
    assert (Hf : fexp 53 1024 (Zdigits2 m2 + e') =
                 Z.max (Zdigits2 m2 + e' - 53) (-1074)) by reflexivity.
    assert (Hf1 : fexp 53 1024 (Zdigits2 m + e) =
                 Z.max (Zdigits2 m + e - 53) (-1074)) by reflexivity.
    assert (Hle : e'' <= 971) by lia.
    apply Z.leb_le in Hle. change (1024 - 53) with 971. rewrite Hle. reflexivity.
Qed.

Lemma pos_iter_xO (m d : positive) :
  Zpos (Pos.iter xO m d) = Zpos m * 2 ^ Zpos d /\
  Zpos (digits2_pos (Pos.iter xO m d)) = Zpos (digits2_pos m) + Zpos d.
Proof.
  induction d as [|d [IH1 IH2]] using Pos.peano_ind.
  - cbn [Pos.iter digits2_pos]. change (2 ^ 1) with 2. lia.
  - rewrite Pos.iter_succ. cbn [digits2_pos].
    rewrite Pos2Z.inj_xO, IH1, !Pos2Z.inj_succ, IH2, Z.pow_succ_r by lia.
    lia.
Qed.

Lemma binary_round_cases (s : bool) (mx : positive) (ex : Z) :
  is_nan (binary_round 53 1024 s mx ex) = false /\
  (ex <= 971 -> Zpos (digits2_pos mx) + ex <= 1023 ->
   isfinite (binary_round 53 1024 s mx ex) = true).
Proof.
  unfold binary_round, shl_align.
  destruct (fexp 53 1024 (Zpos (digits2_pos mx) + ex) - ex) as [|d|d] eqn:Hd.
  - destruct (binary_round_aux_cases s (Zpos mx) ex loc_Exact) as [H1 H2]; [lia|].
    split; [exact H1|]. intros He HD. apply H2; [exact He | exact HD].
  - destruct (binary_round_aux_cases s (Zpos mx) ex loc_Exact) as [H1 H2]; [lia|].
    split; [exact H1|]. intros He HD. apply H2; [exact He | exact HD].
  - destruct (pos_iter_xO mx d) as [_ Hdig].
    destruct (binary_round_aux_cases s (Zpos (Pos.iter xO mx d))
                (fexp 53 1024 (Zpos (digits2_pos mx) + ex)) loc_Exact)
      as [H1 H2]; [lia|].
    split; [exact H1|]. intros He HD. apply H2.
    + lia.
    + cbn [Zdigits2]. rewrite Hdig. lia.
Qed.

Lemma binary_normalize_cases (m e : Z) :
  is_nan (binary_normalize 53 1024 m e false) = false /\
  (e <= 971 -> Zdigits2 m + e <= 1023 ->
   isfinite (binary_normalize 53 1024 m e false) = true).
Proof.
  destruct m as [|p|p]; cbn [binary_normalize Zdigits2].
  - split; [reflexivity|]. intros; reflexivity.
  - apply binary_round_cases.
  - apply binary_round_cases.
Qed.

(** A finite double minus a number may overflow, but it is a number. *)
Lemma sub_not_nan (a b : double) :
  isfinite a = true -> is_nan b = false -> is_nan (sub a b) = false.
Proof.
  destruct a as [sa | sa | | sa ma ea]; try discriminate;
  destruct b as [sb | sb | | sb mb eb]; try discriminate; intros _ _.
  - destruct sa, sb; reflexivity.
  - reflexivity.
  - reflexivity.
  - reflexivity.
  - reflexivity.
  - apply binary_normalize_cases.
Qed.

Lemma shl_align_fst (m : positive) (e ez : Z) :
  ez <= e -> Zpos (fst (shl_align m e ez)) = Zpos m * 2 ^ (e - ez).
Proof.
  intros H. unfold shl_align.
  destruct (ez - e) as [|d|d] eqn:Hd; cbn [fst]; try lia.
  - replace (e - ez) with 0 by lia. lia.
  - destruct (pos_iter_xO m d) as [-> _]. f_equal. f_equal. lia.
Qed.

Lemma aligned_below (m : positive) (e ez k : Z) :
  ez <= e -> Zpos (digits2_pos m) + e <= k ->
  Zpos (fst (shl_align m e ez)) < 2 ^ (k - ez).
Proof.
  intros He Hk. rewrite (shl_align_fst m e ez He).
  destruct (digits2_pos_bounds m) as [_ Hhi].
  assert (Hp : 0 < 2 ^ (e - ez)) by (apply Z.pow_pos_nonneg; lia).
  assert (Hle : 2 ^ (Zpos (digits2_pos m) + (e - ez)) <= 2 ^ (k - ez))
    by (apply Z.pow_le_mono_r; lia).
  rewrite Z.pow_add_r in Hle by lia. nia.
Qed.

(** ** Rounding just below the overflow threshold *)

Lemma shifted_1 (mrs : shr_record) :
  0 <= shr_m mrs -> shifted 1 mrs (shr_1 mrs).
Proof.
  destruct mrs as [m r s]. cbn [shr_m]. intros Hm. unfold shifted.
  change (2 ^ 1) with 2. change (2 ^ (1 - 1)) with 1.
  destruct m as [|[p|p|]|p]; cbn [shr_1 shr_m shr_r]; try lia.
  - split; [lia|]. exists 0. split; [lia|]. split; [lia|]. discriminate.
  - split; [lia|]. exists 1. split; [lia|]. split; [lia|]. lia.
  - split; [lia|]. exists 0. split; [lia|]. split; [lia|]. discriminate.
  - split; [lia|]. exists 1. split; [lia|]. split; [lia|]. lia.
Qed.

Lemma shifted_trans (k1 k2 : Z) (x0 x1 x2 : shr_record) :
  1 <= k1 -> 1 <= k2 ->
  shifted k1 x0 x1 -> shifted k2 x1 x2 -> shifted (k1 + k2) x0 x2.
Proof.
  intros H1 H2 (P1 & r1 & E1 & B1 & R1) (P2 & r2 & E2 & B2 & R2).
  split; [exact P2|].
  exists (r2 * 2 ^ k1 + r1).
  assert (Hp1 : 0 < 2 ^ k1) by (apply Z.pow_pos_nonneg; lia).
  assert (Hp2 : 0 < 2 ^ k2) by (apply Z.pow_pos_nonneg; lia).
  rewrite (Z.add_comm k1 k2) at 1 2. rewrite !Z.pow_add_r by lia.
  split; [rewrite E1, E2; ring|]. split; [nia|].
  intros Hr. specialize (R2 Hr).
  replace (k1 + k2 - 1) with (k2 - 1 + k1) by lia.
  rewrite Z.pow_add_r by lia. nia.
Qed.

Lemma iter_shr_1_shifted (n : positive) :
  forall mrs : shr_record,
    0 <= shr_m mrs -> shifted (Zpos n) mrs (iter_pos shr_1 n mrs).
Proof.
  induction n as [n IH | n IH |]; intros mrs Hm; cbn [iter_pos].
  - pose proof (shifted_1 mrs Hm) as S1.
    pose proof (IH _ (proj1 S1)) as S2.
    pose proof (IH _ (proj1 S2)) as S3.
    replace (Z.pos n~1) with (1 + Z.pos n + Z.pos n) by lia.
    apply (shifted_trans (1 + Z.pos n) (Z.pos n) mrs
             (iter_pos shr_1 n (shr_1 mrs))); try lia; [|exact S3].
    apply (shifted_trans 1 (Z.pos n) mrs (shr_1 mrs)); try lia; assumption.
  - pose proof (IH _ Hm) as S1.
    pose proof (IH _ (proj1 S1)) as S2.
    replace (Z.pos n~0) with (Z.pos n + Z.pos n) by lia.
    apply (shifted_trans (Z.pos n) (Z.pos n) mrs (iter_pos shr_1 n mrs));
      try lia; assumption.
  - apply shifted_1. exact Hm.
Qed.

Lemma round_down_when_low (mrs : shr_record) :
  shr_r mrs = false ->
  round_nearest_even (shr_m mrs) (loc_of_shr_record mrs) = shr_m mrs.
Proof. destruct mrs as [m r [|]]; cbn [shr_r]; intros ->; reflexivity. Qed.

(** A mantissa below the midpoint between the largest double and 2^1024
    rounds to a double. *)
Lemma binary_round_aux_below_overflow (s : bool) (m e : Z) :
  0 <= m -> e <= 971 -> 2 * m < (2 ^ 54 - 1) * 2 ^ (971 - e) ->
  isfinite (binary_round_aux 53 1024 s m e loc_Exact) = true.
Proof.
  intros Hm He Hlt.
  assert (Hp : 0 < 2 ^ (971 - e)) by (apply Z.pow_pos_nonneg; lia).
  assert (HD : Zdigits2 m + e <= 1024).
  { assert (Zdigits2 m <= 1024 - e); [|lia].
    apply Zdigits2_le; [exact Hm | lia |].
    replace (1024 - e) with (53 + (971 - e)) by lia.
    rewrite Z.pow_add_r by lia.
    change (2 ^ 54) with (2 * 2 ^ 53) in Hlt. nia. }
  destruct (Z_le_gt_dec (Zdigits2 m + e) 1023) as [Hlow | Hhigh].
  { apply (binary_round_aux_cases s m e loc_Exact Hm); assumption. }
  assert (HD' : Zdigits2 m + e = 1024) by lia.
  unfold binary_round_aux.
  assert (Hstage : exists mrs',
      shr_fexp 53 1024 m e loc_Exact = (mrs', 971) /\
      0 <= round_nearest_even (shr_m mrs') (loc_of_shr_record mrs')
        <= 2 ^ 53 - 1).
  { unfold shr_fexp, shr. rewrite HD'.
    change (fexp 53 1024 1024) with 971.
    destruct (971 - e) as [|n|n] eqn:Hn; try lia.
    - replace e with 971 by lia. eexists. split; [reflexivity|].
      cbn [shr_record_of_loc shr_m loc_of_shr_record round_nearest_even].
      change (2 ^ 0) with 1 in Hlt. lia.
    - replace (e + Z.pos n) with 971 by lia. eexists. split; [reflexivity|].
      assert (H0 : 0 <= shr_m (shr_record_of_loc m loc_Exact)) by exact Hm.
      destruct (iter_shr_1_shifted n _ H0) as (P & rem & E & B & R).
      change (shr_m (shr_record_of_loc m loc_Exact)) with m in E.
      set (x := iter_pos shr_1 n (shr_record_of_loc m loc_Exact)) in *.
      pose proof (round_nearest_even_bounds (shr_m x) (loc_of_shr_record x)) as Hr.
      change (2 ^ 54) with (2 * 2 ^ 53) in Hlt.
      assert (Hx : shr_m x <= 2 ^ 53 - 1).
      { destruct (Z_le_gt_dec (shr_m x) (2 ^ 53 - 1)) as [Hok | Hbig];
          [exact Hok|]. exfalso.
        assert (2 ^ 53 * 2 ^ Z.pos n <= shr_m x * 2 ^ Z.pos n)
          by (apply Z.mul_le_mono_nonneg_r; lia).
        lia. }
      destruct (Z.eq_dec (shr_m x) (2 ^ 53 - 1)) as [Htop | Hnot]; [|lia].
      assert (Hlowbit : shr_r x = false).
      { destruct (shr_r x); [|reflexivity].
        specialize (R eq_refl).
        assert (E2 : 2 ^ Z.pos n = 2 * 2 ^ (Z.pos n - 1)).
        { replace (Z.pos n) with (1 + (Z.pos n - 1)) at 1 by lia.
          rewrite Z.pow_add_r by lia. reflexivity. }
        rewrite Htop in E. lia. }
      rewrite (round_down_when_low x Hlowbit). lia. }
  destruct Hstage as (mrs' & -> & Hm2).
  set (m2 := round_nearest_even (shr_m mrs') (loc_of_shr_record mrs')) in *.
  destruct (shr_fexp_bounds m2 971 loc_Exact (proj1 Hm2)) as (K1 & K2 & _).
  destruct (shr_fexp 53 1024 m2 971 loc_Exact) as [mrs'' e''] eqn:E2.
  cbn [fst snd] in *.
  assert (Hd2 : Zdigits2 m2 <= 53).
  { apply Zdigits2_le; lia. }
  assert (Hf : fexp 53 1024 (Zdigits2 m2 + 971) =
               Z.max (Zdigits2 m2 + 971 - 53) (-1074)) by reflexivity.
  assert (He'' : e'' = 971) by lia.
  destruct (shr_m mrs'') as [|p|p]; try lia; [reflexivity|].
  rewrite He''. reflexivity.
Qed.

Lemma binary_round_below_overflow (s : bool) (mx : positive) (ex : Z) :
  ex <= 971 -> 2 * Zpos mx < (2 ^ 54 - 1) * 2 ^ (971 - ex) ->
  isfinite (binary_round 53 1024 s mx ex) = true.
Proof.
  intros He Hlt. unfold binary_round, shl_align.
  destruct (fexp 53 1024 (Zpos (digits2_pos mx) + ex) - ex) as [|d|d] eqn:Hd.
  - apply binary_round_aux_below_overflow; [lia | exact He | exact Hlt].
  - apply binary_round_aux_below_overflow; [lia | exact He | exact Hlt].
  - destruct (pos_iter_xO mx d) as [Hv _].
    apply binary_round_aux_below_overflow; [lia | lia |].
    rewrite Hv.
    assert (E : 2 ^ (971 - fexp 53 1024 (Zpos (digits2_pos mx) + ex)) =
                2 ^ (971 - ex) * 2 ^ Zpos d).
    { rewrite <- Z.pow_add_r by lia. f_equal. lia. }
    rewrite E.
    assert (Hp : 0 < 2 ^ Zpos d) by (apply Z.pow_pos_nonneg; lia).
    nia.
Qed.

Lemma binary_normalize_below_overflow (m e : Z) :
  e <= 971 -> 2 * Z.abs m < (2 ^ 54 - 1) * 2 ^ (971 - e) ->
  isfinite (binary_normalize 53 1024 m e false) = true.
Proof.
  destruct m as [|p|p]; cbn [binary_normalize Z.abs]; intros He Hlt.
  - reflexivity.
  - apply binary_round_below_overflow; assumption.
  - apply binary_round_below_overflow; assumption.
Qed.

Lemma wf_exponent_le (s : bool) (m : positive) (e : Z) :
  wf (S754_finite s m e) -> e <= 971 /\ Zpos m <= 2 ^ 53 - 1.
Proof.
  intros W. pose proof (wf_finite_inv s m e W) as (_ & Hm & _).
  unfold wf, valid_binary, bounded in W.
  apply andb_true_iff in W as [_ W]. apply Z.leb_le in W.
  change (emax - prec) with 971 in W. lia.
Qed.

(** An angle minus a finite heading is finite: the difference of a
    double below 8 in magnitude and any finite double does not overflow. *)
Lemma sub_finite (a b : double) :
  digits_below 3 a -> wf b -> isfinite b = true -> isfinite (sub a b) = true.
Proof.
  destruct a as [sa | sa | | sa ma ea]; try contradiction;
  destruct b as [sb | sb | | sb mb eb]; try discriminate;
    cbn [digits_below]; intros Ha Wb _.
  - destruct sa, sb; reflexivity.
  - reflexivity.
  - reflexivity.
  - destruct (wf_exponent_le sb mb eb Wb) as [Heb Hmb].
    unfold sub, prec, emax. cbn [SFsub].
    set (ez := Z.min ea eb).
    assert (Hea : ez <= ea) by (unfold ez; lia).
    assert (Hez : ez <= eb) by (unfold ez; lia).
    pose proof (aligned_below ma ea ez 3 Hea Ha) as Ba.
    pose proof (shl_align_fst mb eb ez Hez) as Eb.
    set (za := Zpos (fst (shl_align ma ea ez))) in *.
    set (zb := Zpos (fst (shl_align mb eb ez))) in *.
    assert (Pa : 0 < za) by (unfold za; lia).
    apply binary_normalize_below_overflow; [lia|].
    assert (Hp : 0 < 2 ^ (eb - ez)) by (apply Z.pow_pos_nonneg; lia).
    assert (E1 : 2 ^ (971 - ez) = 2 ^ (971 - eb) * 2 ^ (eb - ez)).
    { rewrite <- Z.pow_add_r by lia. f_equal. lia. }
    assert (Hq : 1 <= 2 ^ (971 - eb)).
    { assert (0 < 2 ^ (971 - eb)) by (apply Z.pow_pos_nonneg; lia). lia. }
    assert (Hza : 2 * za < 2 ^ (971 - ez)).
    { assert (Hle : 2 ^ (1 + (3 - ez)) <= 2 ^ (971 - ez))
        by (apply Z.pow_le_mono_r; lia).
      rewrite Z.pow_add_r in Hle by lia. change (2 ^ 1) with 2 in Hle. lia. }
    assert (Hzb : zb <= (2 ^ 53 - 1) * 2 ^ (971 - ez)).
    { rewrite Eb, E1. nia. }
    change (2 ^ 54) with (2 * 2 ^ 53).
    assert (Habs : Z.abs (cond_Zopp sa za - cond_Zopp sb zb) <= za + zb)
      by (destruct sa, sb; cbn [cond_Zopp]; lia).
    nia.
Qed.

(** ** The heading in double arithmetic: its range *)

Lemma Q2R_small (n : Z) : Q2R (inject_Z n) = IZR n.
Proof. unfold Q2R, inject_Z. cbn [Qnum Qden]. rewrite Rinv_1. ring. Qed.

Lemma digits_of_Q_lt (m : positive) (e k : Z) :
  (inject_Z (Zpos m) * 2 ^ e < 2 ^ k)%Q -> Zpos (digits2_pos m) + e <= k.
Proof.
  intros H. destruct (Z_le_gt_dec (Zpos (digits2_pos m) + e) k) as [Hle | Hgt];
    [exact Hle|].
  exfalso. apply (Qlt_not_le _ _ H).
  destruct (digits2_pos_bounds m) as [Hlo _].
  set (d := Zpos (digits2_pos m)) in *.
  apply Qle_trans with (2 ^ (d - 1 + e))%Q.
  - apply Qpower_le_compat_l; [lia | discriminate].
  - rewrite Qpower_plus by discriminate.
    apply Qmult_le_compat_r; [|apply Qlt_le_weak, two_pow_pos].
    assert (E : (2 ^ (d - 1) == inject_Z (2 ^ (d - 1)))%Q)
      by (rewrite Zpower_Qpower by lia; reflexivity).
    rewrite E, <- Zle_Qle. exact Hlo.
Qed.

Lemma in_turn_range_below (v : double) : in_turn_range v -> digits_below 3 v.
Proof.
  intros [Hf [Hlo Hhi]].
  destruct v as [s | s | | s m e]; try discriminate; cbn [digits_below]; [exact I|].
  apply digits_of_Q_lt.
  pose proof PI_4 as H4.
  apply Qle_lt_trans with (inject_Z 4); [|reflexivity].
  apply Rle_Qle. rewrite Q2R_small.
  destruct s.
  - rewrite to_Q_neg, Q2R_opp in Hlo. Lra.lra.
  - cbn [to_Q cond_Zopp] in Hhi. Lra.lra.
Qed.

Lemma finite_not_nan (a : double) : isfinite a = true -> is_nan a = false.
Proof. destruct a; try discriminate; reflexivity. Qed.

Lemma cmath_atan2_number (L : Libm) (a b : double) :
  is_nan a = false -> is_nan b = false -> Cmath.atan2 L a b = libm_atan2 L a b.
Proof. intros Ha Hb. unfold Cmath.atan2. rewrite Ha, Hb. reflexivity. Qed.

Lemma cmath_sin_number (L : Libm) (a : double) :
  is_nan a = false -> Cmath.sin L a = libm_sin L a.
Proof. intros Ha. unfold Cmath.sin. rewrite Ha. reflexivity. Qed.

Lemma cmath_cos_number (L : Libm) (a : double) :
  is_nan a = false -> Cmath.cos L a = libm_cos L a.
Proof. intros Ha. unfold Cmath.cos. rewrite Ha. reflexivity. Qed.

(** With a conforming libm the turn towards a finite goal from a usable
    robot pose is a number between -pi and pi. *)
Lemma dtheta_double_in_range (L : Libm) (g r : Pose2D) :
  conforming L ->
  isfinite (x g) = true -> isfinite (y g) = true ->
  wf (theta r) -> usable_pose r ->
  in_turn_range (dtheta_double L g r).
Proof.
  intros C Gx Gy Wt (Rx & Ry & Rt).
  unfold dtheta_double, dtheta.
  pose proof (sub_not_nan (y g) (y r) Gy Ry) as Ny.
  pose proof (sub_not_nan (x g) (x r) Gx Rx) as Nx.
  rewrite (cmath_atan2_number L _ _ Ny Nx).
  pose proof (atan2_in_range L C _ _ Ny Nx) as Hh.
  set (h := libm_atan2 L (sub (y g) (y r)) (sub (x g) (x r))) in *.
  pose proof (sub_finite h (theta r) (in_turn_range_below h Hh) Wt Rt) as Fd.
  set (d := sub h (theta r)) in *.
  pose proof (finite_not_nan d Fd) as Nd.
  rewrite (cmath_sin_number L d Nd), (cmath_cos_number L d Nd).
  pose proof (sin_number L C d Fd) as Ns.
  pose proof (cos_number L C d Fd) as Nc.
  rewrite (cmath_atan2_number L _ _ Ns Nc).
  apply (atan2_in_range L C); assumption.
Qed.

(** From any other robot pose it is NaN: a NaN coordinate goes through
    every operation, and an infinite heading makes the difference
    infinite, whose sine is NaN. *)
Lemma dtheta_double_unusable (L : Libm) (g r : Pose2D) :
  conforming L ->
  isfinite (x g) = true -> isfinite (y g) = true ->
  ~ usable_pose r ->
  dtheta_double L g r = NaN.
Proof.
  intros C Gx Gy Hbad.
  destruct (is_nan (x r)) eqn:Rx;
    [apply dtheta_double_nan; right; right; left; exact Rx|].
  destruct (is_nan (y r)) eqn:Ry;
    [apply dtheta_double_nan; do 3 right; left; exact Ry|].
  destruct (theta r) as [st | st | | st mt et] eqn:Et.
  - exfalso. apply Hbad. repeat split; try assumption. rewrite Et. reflexivity.
  - unfold dtheta_double, dtheta. rewrite Et.
    pose proof (sub_not_nan (y g) (y r) Gy Ry) as Ny.
    pose proof (sub_not_nan (x g) (x r) Gx Rx) as Nx.
    rewrite (cmath_atan2_number L _ _ Ny Nx).
    destruct (atan2_in_range L C _ _ Ny Nx) as [Fh _].
    set (h := libm_atan2 L (sub (y g) (y r)) (sub (x g) (x r))) in *.
    assert (E : sub h (S754_infinity st) = S754_infinity (negb st))
      by (destruct h; try discriminate; reflexivity).
    rewrite E. rewrite (cmath_sin_number L (S754_infinity (negb st)) eq_refl).
    unfold Cmath.atan2. rewrite (sin_infinity L C). reflexivity.
  - apply dtheta_double_nan. do 4 right. rewrite Et. reflexivity.
  - exfalso. apply Hbad. repeat split; try assumption. rewrite Et. reflexivity.
Qed.

Lemma dtheta_double_east (L : Libm) :
  conforming L ->
  dtheta_double L (point2d (of_int 100) zero) zero_pose2d = zero.
Proof.
  intros C. unfold dtheta_double, dtheta. cbn [x y theta point2d zero_pose2d].
  change (sub zero zero) with zero.
  change (sub (of_int 100) zero) with (S754_finite false 7036874417766400 (-46)).
  rewrite (cmath_atan2_number L zero (S754_finite false 7036874417766400 (-46))
             eq_refl eq_refl).
  rewrite (atan2_zero_positive L C).
  change (sub zero zero) with zero.
  rewrite (cmath_sin_number L zero eq_refl), (cmath_cos_number L zero eq_refl).
  rewrite (sin_zero L C), (cos_zero L C).
  rewrite (cmath_atan2_number L zero one eq_refl eq_refl).
  apply (atan2_zero_positive L C).
Qed.

Lemma dtheta_double_north (L : Libm) :
  conforming L ->
  Cmath.atan2 L (sub (of_int 100) zero) (sub zero zero) = half_pi /\
  dtheta_double L (point2d zero (of_int 100)) zero_pose2d =
    Cmath.atan2 L (Cmath.sin L half_pi) (Cmath.cos L half_pi) /\
  (exact_at_half_pi L ->
   dtheta_double L (point2d zero (of_int 100)) zero_pose2d = half_pi).
Proof.
  intros C.
  assert (H : Cmath.atan2 L (sub (of_int 100) zero) (sub zero zero) = half_pi).
  { change (sub zero zero) with zero.
    change (sub (of_int 100) zero) with (S754_finite false 7036874417766400 (-46)).
    rewrite (cmath_atan2_number L (S754_finite false 7036874417766400 (-46)) zero
               eq_refl eq_refl).
    apply (atan2_positive_zero L C). }
  assert (E : dtheta_double L (point2d zero (of_int 100)) zero_pose2d =
              Cmath.atan2 L (Cmath.sin L half_pi) (Cmath.cos L half_pi)).
  { unfold dtheta_double, dtheta. cbn [x y theta point2d zero_pose2d].
    rewrite H. reflexivity. }
  split; [exact H|]. split; [exact E|].
  intros (Hs & Hc & Ha). rewrite E.
  rewrite (cmath_sin_number L half_pi eq_refl), (cmath_cos_number L half_pi eq_refl).
  rewrite Hs, Hc. rewrite (cmath_atan2_number L one cos_half_pi eq_refl eq_refl).
  exact Ha.
Qed.

Lemma in_turn_range_zero : in_turn_range zero.
Proof.
  split; [reflexivity|]. cbn [to_Q zero]. rewrite RMicromega.Q2R_0.
  pose proof PI_RGT_0. Lra.lra.
Qed.

Lemma in_turn_range_half_pi : in_turn_range half_pi.
Proof.
  split; [reflexivity|].
  assert (Hlo : (Q2R (inject_Z 0) <= Q2R (to_Q half_pi))%R)
    by (apply Qle_Rle; vm_compute; discriminate).
  assert (Hhi : (Q2R (to_Q half_pi) <= Q2R (inject_Z 2))%R)
    by (apply Qle_Rle; vm_compute; discriminate).
  rewrite Q2R_small in Hlo, Hhi.
  pose proof PI2_3_2. Lra.lra.
Qed.

Lemma libm_coarse_conforming : conforming libm_coarse.
Proof.
  split.
  - intros a b _ _. cbn [libm_atan2 libm_coarse].
    destruct a as [s | s | | [|] m e];
      first [exact in_turn_range_zero | exact in_turn_range_half_pi].
  - reflexivity.
  - reflexivity.
  - reflexivity.
  - reflexivity.
  - intros a Fa. cbn [libm_sin libm_coarse].
    destruct a as [s | s | | [|] m e]; try discriminate; reflexivity.
  - intros a _. cbn [libm_cos libm_coarse].
    destruct (match a with
              | S754_finite false 7074237752028440 (-52) => cos_half_pi
              | _ => one
              end) eqn:E; try reflexivity.
    exfalso. revert E.
    repeat match goal with
           | |- context [match ?c with _ => _ end] => destruct c
           end; discriminate.
  - reflexivity.
Qed.

Lemma libm_coarse_exact : exact_at_half_pi libm_coarse.
Proof. split; [|split]; reflexivity. Qed.

(** ** The turn command *)

Lemma look_turn_publishes (L : Libm) (srv : Services) (s : Store) :
  let o := look L srv s [] in
  robot (out_store o) = robot s /\
  (state (out_store o) = 4 ->
   exit_code o = None /\
   turn_publishes (out_trace o) = [dtheta_double L (goal (out_store o)) (robot s)] /\
   cmd_turn (out_store o) = dtheta_double L (goal (out_store o)) (robot s)) /\
  (state (out_store o) <> 4 -> turn_publishes (out_trace o) = []).
Proof.
  flat s. run_prog.
  all: cbn [turn_publishes]; split; [reflexivity|]; split; intros H;
    try discriminate H; try (exfalso; apply H; reflexivity);
    try reflexivity; repeat split; reflexivity.
Qed.

Lemma tick_look (L : Libm) (srv : Services) (s : Store) (t : trace) :
  cmd s = 1 -> tick L srv s t = look L srv s t.
Proof. flat s. unfold_prog. intros ->. run_prog; reflexivity. Qed.

Lemma nan_turn (L : Libm) (g r : Pose2D) :
  state (out_store (look L (look_services g) (look_store r) [])) = 4 ->
  goal (out_store (look L (look_services g) (look_store r) [])) = g ->
  dtheta_double L g (robot (look_store r)) = NaN ->
  turn_publishes (out_trace (tick L (look_services g) (look_store r) [])) = [NaN].
Proof.
  intros H4 Hg Hn. rewrite tick_look by reflexivity.
  destruct (look_turn_publishes L (look_services g) (look_store r))
    as (_ & Hp & _).
  destruct (Hp H4) as (_ & -> & _). rewrite Hg, Hn. reflexivity.
Qed.

Lemma usable_pose_zero : usable_pose zero_pose2d.
Proof. repeat split; reflexivity. Qed.

(** C8 (as the code has it). The turn command is published only in an
    activation whose pipeline state reaches PathPublished (4), once, and
    its value is atan2(sin d, cos d) for
    d = atan2(goal.y - robot.y, goal.x - robot.x) - robot.theta, computed in
    double arithmetic on the goal of this activation and the robot pose.
    With a libm that conforms to C11 and a finite goal (a valid goal is
    finite), this value lies in (-pi, pi] exactly when the robot position
    holds no NaN and the robot heading is finite, and it is NaN otherwise.
    It is 0 for goal (100,0) and robot (0,0,0). For goal (0,100) and robot
    (0,0,0), atan2(100, 0) is the double pi/2, the value lies in
    (-pi, pi], and it is the double pi/2 when the libm rounds to nearest
    at that double. *)
Theorem C8_heading_correction (L : Libm) (srv : Services) (s : Store)
    (t : trace) :
  conforming L ->
  (exists ev,
      out_trace (look L srv s t) = t ++ ev /\
      (state (out_store (look L srv s t)) = 4 ->
       turn_publishes ev =
         [dtheta_double L (goal (out_store (look L srv s t))) (robot s)]) /\
      (state (out_store (look L srv s t)) <> 4 -> turn_publishes ev = []) /\
      (forall v, In v (turn_publishes ev) ->
         valid_point (goal (out_store (look L srv s t))) ->
         wf (theta (robot s)) ->
         (in_turn_range v <-> usable_pose (robot s)) /\
         (~ usable_pose (robot s) -> v = NaN))) /\
  (forall g r : Pose2D,
      dtheta_double L g r =
      Cmath.atan2 L
        (Cmath.sin L (sub (Cmath.atan2 L (sub (y g) (y r)) (sub (x g) (x r)))
                          (theta r)))
        (Cmath.cos L (sub (Cmath.atan2 L (sub (y g) (y r)) (sub (x g) (x r)))
                          (theta r)))) /\
  (forall g r : Pose2D,
      isfinite (x g) = true -> isfinite (y g) = true -> wf (theta r) ->
      (in_turn_range (dtheta_double L g r) <-> usable_pose r) /\
      (~ usable_pose r -> dtheta_double L g r = NaN)) /\
  dtheta_double L (point2d (of_int 100) zero) zero_pose2d = zero /\
  Cmath.atan2 L (sub (of_int 100) zero) (sub zero zero) = half_pi /\
  in_turn_range (dtheta_double L (point2d zero (of_int 100)) zero_pose2d) /\
  (exact_at_half_pi L ->
   dtheta_double L (point2d zero (of_int 100)) zero_pose2d = half_pi).
Proof.
  intros C.
  assert (Hrange : forall g r : Pose2D,
             isfinite (x g) = true -> isfinite (y g) = true -> wf (theta r) ->
             (in_turn_range (dtheta_double L g r) <-> usable_pose r) /\
             (~ usable_pose r -> dtheta_double L g r = NaN)).
  { intros g r Gx Gy Wt.
    pose proof (dtheta_double_unusable L g r C Gx Gy) as Hbad.
    split; [|exact Hbad]. split.
    - intros Hin.
      destruct (is_nan (x r)) eqn:Rx, (is_nan (y r)) eqn:Ry,
               (isfinite (theta r)) eqn:Rt;
        try (repeat split; assumption);
        exfalso; rewrite Hbad in Hin;
        try exact (nan_not_in_turn_range Hin);
        intros (A & B & D); congruence.
    - intros Hu. apply dtheta_double_in_range; assumption. }
  split; [|split; [|split; [|split; [|split; [|split]]]]].
  - rewrite look_frame.
    pose proof (look_turn_publishes L srv s) as Hl. cbv zeta in Hl.
    destruct (look L srv s []) as [[] s' ev | c s' ev];
      cbn [prepend out_store out_trace] in *;
      destruct Hl as (_ & H4 & Hn); exists ev;
      (split; [reflexivity|]);
      (split; [intros H; apply H4; exact H|]);
      (split; [exact Hn|]).
    all: intros v Hin (Gx & Gy & _) Wt.
    all: destruct (Z.eq_dec (state s') 4) as [E | E];
      [destruct (H4 E) as (_ & Hp & _) | rewrite (Hn E) in Hin; destruct Hin].
    all: rewrite Hp in Hin; destruct Hin as [<- | []].
    all: apply Hrange; assumption.
  - intros g r. reflexivity.
  - exact Hrange.
  - exact (dtheta_double_east L C).
  - exact (proj1 (dtheta_double_north L C)).
  - apply (Hrange (point2d zero (of_int 100)) zero_pose2d);
      [reflexivity | reflexivity | reflexivity | exact usable_pose_zero].
  - exact (proj2 (proj2 (dtheta_double_north L C))).
Qed.

(** C8, a value outside the range. With the robot pose delivered as
    (0, 0, NaN), a valid goal and every stage answering validly, the
    activation reaches PathPublished and publishes the turn command NaN,
    which is not in (-pi, pi], whatever the libm. *)
Lemma C8_nan_turn_published :
  (forall L : Libm,
      turn_publishes
        (out_trace
           (tick L (look_services (point2d (of_int 100) zero))
                 (look_store {| x := zero; y := zero; theta := NaN |}) []))
      = [NaN]) /\
  valid_point (point2d (of_int 100) zero) /\
  ~ in_turn_range NaN.
Proof.
  split; [|split].
  - intros L. apply nan_turn; [reflexivity | reflexivity |].
    apply dtheta_double_nan. do 4 right. reflexivity.
  - apply (target_accepted_valid (point2d (of_int 100) zero)); reflexivity.
  - exact nan_not_in_turn_range.
Qed.

(** ** Ingestion *)

Lemma spinOnce_last (pending : list msg) (m : msg) (s : Store) (t : trace) :
  out_store (spinOnce (pending ++ [m]) s t) =
  deliver m (out_store (spinOnce pending s t)).
Proof.
  unfold spinOnce, modify. cbn [out_store].
  rewrite fold_left_app. reflexivity.
Qed.

(** C6. Each ingestion callback stores the delivered position coordinates
    multiplied by the double 100, which is exactly 100, and stores theta
    (for a gesture, the orientation) unchanged; this is what the store
    holds after a drain of pending deliveries that ends with the pose. *)
Theorem C6_ingestion_scaling (p : Pose2D) (g : Pose) (s : Store) :
  robot (getRobotPose p s) = scaled_pose2d p /\
  obs (getObstaclePose p s) = scaled_pose2d p /\
  gesture (getGesture g s) = scaled_pose g /\
  (to_Q (of_int 100) == 100)%Q /\
  (forall (pending : list msg) (t : trace),
      robot (out_store (spinOnce (pending ++ [MRobot p]) s t)) = scaled_pose2d p /\
      obs (out_store (spinOnce (pending ++ [MObstacle p]) s t)) = scaled_pose2d p /\
      gesture (out_store (spinOnce (pending ++ [MGesture g]) s t)) = scaled_pose g).
Proof.
  split; [reflexivity|]. split; [reflexivity|]. split; [reflexivity|].
  split; [reflexivity|].
  intros pending t. rewrite !spinOnce_last. repeat split; reflexivity.
Qed.

(** 1.5 m is stored as 150 cm. The product is the binary64 one, rounded
    to nearest: 0.07 m is stored as 7.000000000000001 cm. *)
Example ingestion_1_5 : mul (of_int 100) d1_5 = d150.
Proof. reflexivity. Qed.

Example ingestion_0_07 :
  mul (of_int 100) d0_07 = S754_finite false 7881299347898369 (-50).
Proof. reflexivity. Qed.

(** ** Worked examples

    The theorems above at concrete services, stores and deliveries. *)

(** The corner (200, -200) is a valid target. *)
Lemma C2_target_gate_witness :
  let tgt := point2d (of_int 200) (of_int (-200)) in
  let srv := answering (Some tgt) None None None in
  cli_gest srv (gesture initial_store) = Some tgt /\
  wf (x tgt) /\ wf (y tgt) /\
  exists s1 t1,
    (assign_state 0 ;; look_gesture srv)%prog initial_store [] = Ret tt s1 t1 /\
    target s1 = tgt /\
    (state s1 = 1 <-> valid_point tgt) /\
    (state s1 = 0 <-> ~ valid_point tgt).
Proof.
  intros tgt srv.
  split; [reflexivity|]. split; [reflexivity|]. split; [reflexivity|].
  exact (proj1 (C2_target_gate libm_zero srv initial_store [] tgt
                  eq_refl eq_refl eq_refl)).
Defined.

(** A landscape of 1600 cells 0.5 after a valid target. *)
Lemma C7_landscape_gate_witness :
  let land := repeat dhalf (RES * RES) in
  let srv := answering None (Some land) None None in
  cli_pert srv (target initial_store)
           (copy_cells (RES * RES * NZ) (matrices initial_store)) = Some land /\
  (RES * RES <= length land)%nat /\
  exists s' t',
    look_pertinence srv initial_store [] = Ret tt s' t' /\
    (state s' = 2 <-> isfinite (nth 0 land zero) = true) /\
    (state s' = 0 <-> isfinite (nth 0 land zero) = false).
Proof.
  intros land srv.
  assert (Hlen : (RES * RES <= length land)%nat)
    by (apply Nat.leb_le; vm_compute; reflexivity).
  split; [reflexivity|]. split; [exact Hlen|].
  exact (proj1 (C7_landscape_gate srv initial_store [] land eq_refl Hlen)).
Defined.

(** The goal (NaN, 0) is taken for a valid one. *)
Lemma C1_nan_goal_accepted_witness :
  let g := point2d NaN zero in
  let srv := answering None None (Some g) None in
  cli_mont srv (target initial_store)
           (copy_cells (RES * RES) (landscape initial_store)) = Some g /\
  x g = NaN /\ out_of_range VSIZE (y g) = false /\
  ~ valid_point g /\
  exists s',
    look_montecarlo srv initial_store [] =
      Ret tt s' [CallMont (target initial_store)
                   (copy_cells (RES * RES) (landscape initial_store)) true;
                 SetState 3] /\
    goal s' = g /\ state s' = 3.
Proof.
  intros g srv.
  split; [reflexivity|]. split; [reflexivity|]. split; [reflexivity|].
  exact (C1_nan_goal_accepted srv initial_store [] g eq_refl eq_refl eq_refl).
Defined.

(** The spatial reasoner fails: exit status 1, nothing else done. *)
Lemma C4_failed_call_is_fatal_witness :
  let cli_spat : SpatialReasoner := fun _ _ => None in
  cli_spat zero_pose2d [of_int 80; of_int 80] = None /\
  exists s,
    main libm_zero cli_spat [] =
      Exit 1 s [CallSpat zero_pose2d [of_int 80; of_int 80] false].
Proof.
  intros cli_spat. split; [reflexivity|].
  exact (proj1 (proj2 (C4_failed_call_is_fatal libm_zero cli_spat [])) eq_refl).
Defined.

(** A "look" whose target is out of bounds. *)
Lemma X12_activation_is_fresh_witness :
  let srv := answering (Some (point2d (of_int 1000) zero)) None None None in
  let s := look_store zero_pose2d in
  cmd s = 1 /\
  exists ev,
    out_trace (tick libm_zero srv s []) = [] ++ SetState 0 :: ev /\
    (exit_code (tick libm_zero srv s []) = None ->
     cmd (out_store (tick libm_zero srv s [])) = 0 /\
     (filter is_publish ev = [] ->
      state (out_store (tick libm_zero srv s [])) = 0) /\
     (filter is_publish ev <> [] ->
      state (out_store (tick libm_zero srv s [])) = 4)).
Proof.
  intros srv s. split; [reflexivity|].
  exact (proj1 (X12_activation_is_fresh libm_zero srv s [] eq_refl)).
Defined.

(** A "look" that goes through with goal (100, 0) and the robot at
    (0, 0, 0) publishes the turn command 0; towards the goal (0, 100) the
    turn is the double pi/2. *)
Lemma C8_heading_correction_witness :
  let g := point2d (of_int 100) zero in
  let srv := look_services g in
  let s := look_store zero_pose2d in
  (conforming libm_coarse /\ exact_at_half_pi libm_coarse) /\
  state (out_store (look libm_coarse srv s [])) = 4 /\
  turn_publishes (out_trace (look libm_coarse srv s [])) = [zero] /\
  in_turn_range zero /\
  dtheta_double libm_coarse (point2d zero (of_int 100)) zero_pose2d = half_pi.
Proof.
  intros g srv s.
  pose proof libm_coarse_conforming as C.
  pose proof libm_coarse_exact as X.
  assert (H4 : state (out_store (look libm_coarse srv s [])) = 4) by reflexivity.
  split; [split; [exact C | exact X]|]. split; [exact H4|].
  destruct (C8_heading_correction libm_coarse srv s [] C)
    as ((ev & Hev & Hp & _ & Hr) & _ & _ & Heast & _ & _ & Hnorth).
  cbn [app] in Hev. rewrite Hev.
  assert (E : turn_publishes ev = [zero]).
  { rewrite (Hp H4).
    change (goal (out_store (look libm_coarse srv s []))) with g.
    change (robot s) with zero_pose2d. unfold g. rewrite Heast. reflexivity. }
  split; [exact E|].
  assert (Hin : In zero (turn_publishes ev)) by (rewrite E; left; reflexivity).
  assert (Hv : valid_point (goal (out_store (look libm_coarse srv s []))))
    by (apply (target_accepted_valid g); reflexivity).
  split; [|exact (Hnorth X)].
  apply (proj1 (Hr zero Hin Hv eq_refl)).
  exact usable_pose_zero.
Defined.

(** "go", "stop", the unknown tag 99, and "go" then "stop" from start-up. *)
Lemma C9_motion_dispatch_witness :
  let srv := answering None None None None in
  let s2 := deliver (MCommand 2) initial_store in
  let s3 := deliver (MCommand 3) initial_store in
  let s99 := deliver (MCommand 99) initial_store in
  (cmd s2 = 2 /\ cmd s3 = 3 /\ cmd s99 = 99 /\ cmd initial_store = 0) /\
  tick libm_zero srv s2 [] =
    Ret tt (set_cmd 0 (set_enable true s2)) ([] ++ [PubEnable true]) /\
  tick libm_zero srv s3 [] =
    Ret tt (set_cmd 0 (set_enable false s3)) ([] ++ [PubEnable false]) /\
  tick libm_zero srv s99 [] = Ret tt s99 [] /\
  exists s',
    loop libm_zero [(srv, [MCommand 2]); (srv, [MCommand 3]); (srv, [])]
         initial_store [] =
      Exit 0 s' ([] ++ [PubEnable true; PubEnable false]) /\
    cmd s' = 0 /\ enable s' = false.
Proof.
  intros srv s2 s3 s99.
  split; [repeat split; reflexivity|].
  split; [exact (proj1 (C9_motion_dispatch libm_zero srv s2 []) eq_refl)|].
  split; [exact (proj1 (proj2 (C9_motion_dispatch libm_zero srv s3 [])) eq_refl)|].
  split.
  - apply (proj1 (proj2 (proj2 (C9_motion_dispatch libm_zero srv s99 []))));
      vm_compute; lia.
  - exact (proj2 (proj2 (proj2 (C9_motion_dispatch libm_zero srv initial_store [])))
             eq_refl srv srv).
Defined.

(** An obstacle pose (1.5, 1.5) delivered together with "look": the
    request to the planner still carries the box at (0,0). *)
Lemma C10_obstacle_region_fixed_witness :
  let srv := look_services (point2d (of_int 100) zero) in
  let turns := [(srv, [MObstacle (point2d d1_5 d1_5); MCommand 1]); (srv, [])] in
  length (rrts_requests (out_trace (main libm_zero spat_services turns))) = 1%nat /\
  Forall (fun req => Obstacles req = [startup_obstacle])
         (rrts_requests (out_trace (main libm_zero spat_services turns))).
Proof.
  intros srv turns. split; [vm_compute; reflexivity|].
  apply Forall_forall.
  exact (proj1 (C10_obstacle_region_fixed libm_zero spat_services turns)).
Defined.

(** ** A drain of deliveries *)

Lemma last_snoc {A : Type} (l : list A) (a d : A) : last (l ++ [a]) d = a.
Proof. apply last_last. Qed.

Lemma commands_of_app (p q : list msg) :
  commands_of (p ++ q) = commands_of p ++ commands_of q.
Proof.
  induction p as [|m p IH]; [reflexivity|].
  destruct m; cbn [app commands_of]; rewrite IH; reflexivity.
Qed.

Lemma robot_poses_of_app (p q : list msg) :
  robot_poses_of (p ++ q) = robot_poses_of p ++ robot_poses_of q.
Proof.
  induction p as [|m p IH]; [reflexivity|].
  destruct m; cbn [app robot_poses_of]; rewrite IH; reflexivity.
Qed.

Lemma obstacle_poses_of_app (p q : list msg) :
  obstacle_poses_of (p ++ q) = obstacle_poses_of p ++ obstacle_poses_of q.
Proof.
  induction p as [|m p IH]; [reflexivity|].
  destruct m; cbn [app obstacle_poses_of]; rewrite IH; reflexivity.
Qed.

Lemma gestures_of_app (p q : list msg) :
  gestures_of (p ++ q) = gestures_of p ++ gestures_of q.
Proof.
  induction p as [|m p IH]; [reflexivity|].
  destruct m; cbn [app gestures_of]; rewrite IH; reflexivity.
Qed.

(** X1. A drain of pending deliveries leaves, for each topic, what its
    last delivery stored, and what was there before when the topic had no
    delivery: the last command tag, and the last robot, obstacle and
    gesture pose scaled by 100. Earlier deliveries of a topic are lost. It
    publishes nothing, calls nothing, and touches no local of [main]. *)
Theorem X1_last_delivery_wins (pending : list msg) (s : Store) (t : trace) :
  exists s',
    spinOnce pending s t = Ret tt s' t /\
    cmd s' = last (commands_of pending) (cmd s) /\
    robot s' = last (map scaled_pose2d (robot_poses_of pending)) (robot s) /\
    obs s' = last (map scaled_pose2d (obstacle_poses_of pending)) (obs s) /\
    gesture s' = last (map scaled_pose (gestures_of pending)) (gesture s) /\
    (target s' = target s /\ goal s' = goal s /\ rrtPath s' = rrtPath s /\
     matrices s' = matrices s /\ landscape s' = landscape s /\
     enable s' = enable s /\ cmd_turn s' = cmd_turn s /\
     srv_rrts_request s' = srv_rrts_request s /\ state s' = state s).
Proof.
  unfold spinOnce, modify. eexists. split; [reflexivity|].
  induction pending as [|m pending IH] using rev_ind.
  - cbn. repeat split; reflexivity.
  - rewrite fold_left_app. cbn [fold_left].
    rewrite commands_of_app, robot_poses_of_app, obstacle_poses_of_app,
      gestures_of_app, !map_app.
    destruct IH as (Hc & Hr & Ho & Hg & Ht & Hgl & Hp & Hm & Hl & He & Hct & Hq & Hst).
    destruct m; cbn [deliver commands_of robot_poses_of obstacle_poses_of
                     gestures_of map];
      rewrite ?app_nil_r, ?last_snoc.
    all: repeat split; try assumption; try reflexivity.
Qed.

(** ** What start-up leaves *)

Lemma startup_effect (cli_spat : SpatialReasoner) (s : Store) (t : trace)
    (response : list double) :
  cli_spat (obs s) obsdim = Some response ->
  exists s',
    startup cli_spat s t = Ret tt s' (t ++ [CallSpat (obs s) obsdim true]) /\
    enable s' = false /\
    matrices s' = copy_cells (NZ * RES * RES) response /\
    WS (srv_rrts_request s') = workspace_region.
Proof.
  flat s. intros Hs. unfold startup. unfold_prog. fold obsdim. rewrite Hs.
  unfold_prog. eexists. repeat split; reflexivity.
Qed.

Lemma startup_failed_effect (cli_spat : SpatialReasoner) (s : Store) (t : trace) :
  cli_spat (obs s) obsdim = None ->
  exists s',
    startup cli_spat s t = Exit 1 s' (t ++ [CallSpat (obs s) obsdim false]) /\
    enable s' = false.
Proof.
  flat s. intros Hs. unfold startup. unfold_prog. fold obsdim. rewrite Hs.
  unfold_prog. eexists. split; reflexivity.
Qed.

(** ** A command is acted on once *)

Lemma tick_consumes (L : Libm) (srv : Services) (s : Store) (t : trace) :
  exit_code (tick L srv s t) = None ->
  cmd (out_store (tick L srv s t)) <> 1 /\
  cmd (out_store (tick L srv s t)) <> 2 /\
  cmd (out_store (tick L srv s t)) <> 3.
Proof.
  flat s. run_prog; intros Hx; try discriminate Hx.
  all: repeat split; try discriminate; apply Z.eqb_neq; assumption.
Qed.

(** X2. A turn of the loop that returns has consumed the command: the tag
    it leaves is none of 1, 2, 3. So as long as nothing is delivered, the
    following turns do nothing at all, whatever the services would answer:
    a command is acted on once, not once per turn. *)
Theorem X2_command_acted_on_once (L : Libm) (srv : Services) (s : Store)
    (t : trace) :
  exit_code (tick L srv s t) = None ->
  let s' := out_store (tick L srv s t) in
  (cmd s' <> 1 /\ cmd s' <> 2 /\ cmd s' <> 3) /\
  (forall (srv' : Services) (t' : trace), tick L srv' s' t' = Ret tt s' t') /\
  (forall (idle : list Services) (t' : trace),
      loop L (map (fun srv' => (srv', [])) idle) s' t' = Exit 0 s' t').
Proof.
  intros Hx s'. destruct (tick_consumes L srv s t Hx) as (H1 & H2 & H3).
  fold s' in H1, H2, H3.
  assert (Hidle : forall srv' t', tick L srv' s' t' = Ret tt s' t')
    by (intros srv' t'; apply tick_other; assumption).
  split; [repeat split; assumption|]. split; [exact Hidle|].
  intros idle. induction idle as [|srv' idle IH]; intros t'.
  - reflexivity.
  - cbn [map loop]. unfold bind. rewrite Hidle.
    unfold spinOnce, modify. cbn [fold_left]. apply IH.
Qed.

(** ** The enable flag *)

Lemma enable_publishes_app (t u : trace) :
  enable_publishes (t ++ u) = enable_publishes t ++ enable_publishes u.
Proof.
  induction t as [|e t IH]; [reflexivity|].
  destruct e; cbn [app enable_publishes]; rewrite IH; reflexivity.
Qed.

Lemma last_app_default {A : Type} (l u : list A) (d : A) :
  last (l ++ u) d = last u (last l d).
Proof.
  induction u as [|a u IH] using rev_ind.
  - rewrite app_nil_r. reflexivity.
  - rewrite app_assoc, !last_last. reflexivity.
Qed.

Lemma tick_enable (L : Libm) (srv : Services) (s : Store) :
  enable (out_store (tick L srv s [])) =
  last (enable_publishes (out_trace (tick L srv s []))) (enable s).
Proof. flat s. run_prog; reflexivity. Qed.

Lemma deliver_enable (pending : list msg) (s : Store) :
  enable (fold_left (fun s' m => deliver m s') pending s) = enable s.
Proof.
  revert s. induction pending as [|m pending IH]; intros s; [reflexivity|].
  cbn [fold_left]. rewrite IH. destruct m; reflexivity.
Qed.

Lemma loop_enable (L : Libm) (turns : list (Services * list msg)) :
  forall (s : Store) (t : trace),
    enable s = last (enable_publishes t) false ->
    enable (out_store (loop L turns s t)) =
    last (enable_publishes (out_trace (loop L turns s t))) false.
Proof.
  induction turns as [|[srv pending] rest IH]; intros s t Hs.
  - exact Hs.
  - cbn [loop]. unfold bind, spinOnce, modify. rewrite tick_frame.
    pose proof (tick_enable L srv s) as He.
    destruct (tick L srv s []) as [[] s' ev | c s' ev];
      cbn [prepend out_store out_trace] in *.
    + apply IH.
      rewrite deliver_enable, enable_publishes_app, last_app_default, <- Hs.
      exact He.
    + rewrite enable_publishes_app, last_app_default, <- Hs. exact He.
Qed.

(** X3. At the end of every run of [main], whatever was delivered and
    whatever the services answered, the enable flag the node holds is the
    last one it published, and [false] when it has published none: the
    controller never sees a flag that differs from the node's. *)
Theorem X3_enable_is_last_published (L : Libm) (cli_spat : SpatialReasoner)
    (turns : list (Services * list msg)) :
  enable (out_store (main L cli_spat turns)) =
  last (enable_publishes (out_trace (main L cli_spat turns))) false.
Proof.
  unfold main. unfold bind.
  destruct (cli_spat (obs initial_store) obsdim) as [response|] eqn:Hs.
  - destruct (startup_effect cli_spat initial_store [] response Hs)
      as (s' & -> & He & _).
    apply loop_enable. exact He.
  - destruct (startup_failed_effect cli_spat initial_store [] Hs) as (s' & -> & He).
    exact He.
Qed.

(** ** Copies of grids *)

Lemma copy_cells_length (n : nat) (l : list double) :
  length (copy_cells n l) = n.
Proof. unfold copy_cells. rewrite length_map, length_seq. reflexivity. Qed.

Lemma copy_cells_nth (n i : nat) (l : list double) :
  (i < n)%nat -> nth i (copy_cells n l) zero = nth i l zero.
Proof.
  intros Hi. unfold copy_cells.
  rewrite (nth_indep _ zero (nth 0 l zero))
    by (rewrite length_map, length_seq; exact Hi).
  rewrite (map_nth (fun j => nth j l zero) (seq 0 n) 0%nat i).
  rewrite seq_nth by exact Hi. reflexivity.
Qed.

Lemma copy_cells_idem (n : nat) (l : list double) :
  copy_cells n (copy_cells n l) = copy_cells n l.
Proof.
  unfold copy_cells at 1 3. apply map_ext_in. intros i Hi.
  apply in_seq in Hi. apply copy_cells_nth. lia.
Qed.

Lemma copy_cells_full (n : nat) (l : list double) :
  length l = n -> copy_cells n l = l.
Proof.
  intros Hl. apply (nth_ext _ _ zero zero).
  - rewrite copy_cells_length. symmetry. exact Hl.
  - intros i Hi. rewrite copy_cells_length in Hi. apply copy_cells_nth. exact Hi.
Qed.

(** ** The landscapes obtained at start-up *)

Lemma pert_requests_app (t u : trace) :
  pert_requests (t ++ u) = pert_requests t ++ pert_requests u.
Proof.
  induction t as [|e t IH]; [reflexivity|].
  destruct e; cbn [app pert_requests]; rewrite IH; reflexivity.
Qed.

Lemma tick_cache (L : Libm) (srv : Services) (s : Store) :
  matrices (out_store (tick L srv s [])) = matrices s /\
  Forall (fun mats => mats = copy_cells (RES * RES * NZ) (matrices s))
         (pert_requests (out_trace (tick L srv s []))).
Proof.
  flat s. run_prog.
  all: cbn [pert_requests]; split; [reflexivity | repeat constructor].
Qed.

Lemma deliver_matrices (pending : list msg) (s : Store) :
  matrices (fold_left (fun s' m => deliver m s') pending s) = matrices s.
Proof.
  revert s. induction pending as [|m pending IH]; intros s; [reflexivity|].
  cbn [fold_left]. rewrite IH. destruct m; reflexivity.
Qed.

Lemma loop_cache (L : Libm) (turns : list (Services * list msg)) :
  forall (s : Store) (t : trace),
    Forall (fun mats => mats = copy_cells (RES * RES * NZ) (matrices s))
           (pert_requests t) ->
    matrices (out_store (loop L turns s t)) = matrices s /\
    Forall (fun mats => mats = copy_cells (RES * RES * NZ) (matrices s))
           (pert_requests (out_trace (loop L turns s t))).
Proof.
  induction turns as [|[srv pending] rest IH]; intros s t Ht.
  - split; [reflexivity | exact Ht].
  - cbn [loop]. unfold bind, spinOnce, modify. rewrite tick_frame.
    destruct (tick_cache L srv s) as [Hm Hreq].
    destruct (tick L srv s []) as [[] s' ev | c s' ev];
      cbn [prepend out_store out_trace] in *.
    + rewrite <- Hm, <- (deliver_matrices pending s').
      apply IH. rewrite deliver_matrices, Hm, pert_requests_app.
      apply Forall_app. split; assumption.
    + split; [exact Hm|]. rewrite pert_requests_app.
      apply Forall_app. split; assumption.
Qed.

(** X4. The landscapes copied from the spatial reasoner's answer at
    start-up are never changed afterwards, and every request to the
    pertinence mapper, in every run, carries exactly these NZ*RES*RES
    cells: the answer itself when it has that many cells. *)
Theorem X4_landscape_cache (L : Libm) (cli_spat : SpatialReasoner)
    (turns : list (Services * list msg)) (response : list double) :
  cli_spat zero_pose2d obsdim = Some response ->
  matrices (out_store (main L cli_spat turns)) =
    copy_cells (NZ * RES * RES) response /\
  Forall (fun mats => mats = copy_cells (NZ * RES * RES) response)
         (pert_requests (out_trace (main L cli_spat turns))) /\
  (length response = (NZ * RES * RES)%nat ->
   matrices (out_store (main L cli_spat turns)) = response /\
   Forall (fun mats => mats = response)
          (pert_requests (out_trace (main L cli_spat turns)))).
Proof.
  intros Hs.
  assert (Hmain :
    matrices (out_store (main L cli_spat turns)) =
      copy_cells (NZ * RES * RES) response /\
    Forall (fun mats => mats = copy_cells (NZ * RES * RES) response)
           (pert_requests (out_trace (main L cli_spat turns)))).
  { unfold main. unfold bind.
    destruct (startup_effect cli_spat initial_store [] response Hs)
      as (s' & -> & _ & Hm & _).
    destruct (loop_cache L turns s' ([] ++ [CallSpat (obs initial_store) obsdim true]))
      as [Hk Hreq]; [constructor|].
    rewrite Hm in Hk, Hreq.
    change (RES * RES * NZ)%nat with (NZ * RES * RES)%nat in Hreq.
    rewrite copy_cells_idem in Hreq. split; assumption. }
  destruct Hmain as [Hk Hreq]. split; [exact Hk|]. split; [exact Hreq|].
  intros Hlen. rewrite (copy_cells_full _ _ Hlen) in Hk, Hreq. split; assumption.
Qed.

(** ** The requests to the planner *)

Lemma tick_request_shape (L : Libm) (srv : Services) (s : Store) :
  WS (srv_rrts_request s) = workspace_region ->
  WS (srv_rrts_request (out_store (tick L srv s []))) = workspace_region /\
  Forall request_shape (rrts_requests (out_trace (tick L srv s []))).
Proof.
  flat s. intros Hw. run_prog.
  all: cbn [rrts_requests]; split; [assumption|]; repeat constructor.
  all: try assumption; cbn [Goal center_x center_y];
    match goal with
    | H : out_of_bounds _ = false |- _ =>
        unfold out_of_bounds in H; apply orb_false_iff in H; apply H
    end.
Qed.

Lemma deliver_request (pending : list msg) (s : Store) :
  srv_rrts_request (fold_left (fun s' m => deliver m s') pending s) =
  srv_rrts_request s.
Proof.
  revert s. induction pending as [|m pending IH]; intros s; [reflexivity|].
  cbn [fold_left]. rewrite IH. destruct m; reflexivity.
Qed.

Lemma loop_request_shape (L : Libm) (turns : list (Services * list msg)) :
  forall (s : Store) (t : trace),
    WS (srv_rrts_request s) = workspace_region ->
    Forall request_shape (rrts_requests t) ->
    Forall request_shape (rrts_requests (out_trace (loop L turns s t))).
Proof.
  induction turns as [|[srv pending] rest IH]; intros s t Hw Ht.
  - exact Ht.
  - cbn [loop]. unfold bind, spinOnce, modify. rewrite tick_frame.
    destruct (tick_request_shape L srv s Hw) as [Hw' Hreq].
    destruct (tick L srv s []) as [[] s' ev | c s' ev];
      cbn [prepend out_store out_trace] in *.
    + apply IH.
      * rewrite deliver_request. exact Hw'.
      * rewrite rrts_requests_app. apply Forall_app. split; assumption.
    + rewrite rrts_requests_app. apply Forall_app. split; assumption.
Qed.

(** X5. Every request sent to the RRT* planner, in every run, has the
    workspace region centre (0,0,0), size HSIZE x VSIZE x 0; a goal region
    of size 20 x 20 x 0 at height 0 whose centre passed the bound test of
    the code in both coordinates; and an initial position at height 0. *)
Theorem X5_planner_request_shape (L : Libm) (cli_spat : SpatialReasoner)
    (turns : list (Services * list msg)) :
  Forall request_shape (rrts_requests (out_trace (main L cli_spat turns))).
Proof.
  unfold main. unfold bind.
  destruct (cli_spat (obs initial_store) obsdim) as [response|] eqn:Hs.
  - destruct (startup_effect cli_spat initial_store [] response Hs)
      as (s' & -> & _ & _ & Hw).
    apply loop_request_shape; [exact Hw | constructor].
  - destruct (startup_failed cli_spat initial_store [] Hs) as (s' & ->).
    constructor.
Qed.

(** ** A "look" that goes through *)

(** X6. When the four services answer and every check passes, a "look"
    does exactly this: it hands the target answered by gesture processing
    to the pertinence mapper (with the cached landscapes) and to Monte
    Carlo (with the first RES*RES cells of the pertinence answer), hands
    the planner the goal answered by Monte Carlo and the robot position as
    stored when the activation starts, publishes the planner's path point
    for point, then the turn towards that goal; it leaves the state 4 and
    the tag 0, and keeps target, landscape, goal, path and request. *)
Theorem X6_look_goes_through (L : Libm) (srv : Services) (s : Store)
    (t : trace) (tgt : Pose2D) (land : list double) (g : Pose2D)
    (path : list Vector3) :
  cli_gest srv (gesture s) = Some tgt ->
  target_accepted tgt = true ->
  cli_pert srv tgt (copy_cells (RES * RES * NZ) (matrices s)) = Some land ->
  isfinite (nth 0 land zero) = true ->
  cli_mont srv tgt (copy_cells (RES * RES) land) = Some g ->
  out_of_bounds g = false ->
  cli_rrts srv (planner_request s g) = Some path ->
  exists s',
    look L srv s t =
      Ret tt s'
        (t ++ [SetState 0; CallGest (gesture s) true; SetState 1;
               CallPert tgt (copy_cells (RES * RES * NZ) (matrices s)) true;
               SetState 2;
               CallMont tgt (copy_cells (RES * RES) land) true;
               SetState 3;
               CallRrts (planner_request s g) true;
               PubPath path; SetState 4;
               PubTurn (dtheta_double L g (robot s))]) /\
    target s' = tgt /\ landscape s' = copy_cells (RES * RES) land /\
    goal s' = g /\ rrtPath s' = path /\
    cmd_turn s' = dtheta_double L g (robot s) /\
    srv_rrts_request s' = planner_request s g /\
    state s' = 4 /\ cmd s' = 0 /\
    (enable s' = enable s /\ robot s' = robot s /\ obs s' = obs s /\
     gesture s' = gesture s /\ matrices s' = matrices s).
Proof.
  intros Hg Ha Hp Hf Hm Hb Hr.
  unfold target_accepted in Ha. apply andb_true_iff in Ha as [Hfin Hin].
  apply negb_true_iff in Hin.
  rewrite look_frame. flat s. unfold planner_request in *. unfold_prog.
  rewrite Hg. unfold_prog. rewrite Hfin. unfold_prog. rewrite Hin.
  unfold_prog. store_simpl. rewrite Hp. unfold_prog.
  change (nth 0 (copy_cells (RES * RES) land) zero) with (nth 0 land zero).
  rewrite Hf. unfold_prog. store_simpl.
  rewrite copy_cells_idem, Hm. unfold_prog. rewrite Hb. unfold_prog.
  store_simpl. rewrite Hr. unfold_prog. store_simpl.
  rewrite copy_points_id.
  eexists. split; [reflexivity|]. repeat split; reflexivity.
Qed.

(** ** The goal check as the code has it *)

(** X7. The Monte Carlo stage takes the state to GoalValid (3) exactly
    when each coordinate of the goal is NaN or is finite and within
    [-HSIZE/2, HSIZE/2] (resp. VSIZE), and to Idle (0) otherwise; an
    infinite coordinate always gives Idle. *)
Theorem X7_goal_check (srv : Services) (s : Store) (t : trace) (g : Pose2D) :
  cli_mont srv (target s) (copy_cells (RES * RES) (landscape s)) = Some g ->
  wf (x g) -> wf (y g) ->
  let after := state (out_store (look_montecarlo srv s t)) in
  (after = 3 <-> passes_bound HSIZE (x g) /\ passes_bound VSIZE (y g)) /\
  (after = 0 <-> ~ (passes_bound HSIZE (x g) /\ passes_bound VSIZE (y g))) /\
  (isfinite (x g) = false -> is_nan (x g) = false -> after = 0) /\
  (isfinite (y g) = false -> is_nan (y g) = false -> after = 0).
Proof.
  intros Hm Wx Wy after. subst after.
  destruct (look_montecarlo_state srv s t g Hm) as (s' & -> & _ & Hst).
  cbn [out_store]. rewrite Hst.
  pose proof (in_bounds_cases g Wx Wy) as Hb. fold (passes_bound HSIZE (x g)) in Hb.
  fold (passes_bound VSIZE (y g)) in Hb.
  destruct (out_of_bounds g).
  - assert (Hno : ~ (passes_bound HSIZE (x g) /\ passes_bound VSIZE (y g))).
    { intros H. apply (proj2 Hb) in H. discriminate H. }
    split; [split; [discriminate | intros H; contradiction]|].
    split; [split; [intros _; exact Hno | reflexivity]|].
    split; reflexivity.
  - pose proof (proj1 Hb eq_refl) as Hyes.
    split; [split; [intros _; exact Hyes | reflexivity]|].
    split; [split; [discriminate | intros H; contradiction]|].
    destruct Hyes as [[Nx | [Fx _]] [Ny | [Fy _]]];
      split; intros F N; congruence.
Qed.

(** ** What an activation may do *)

(** X10. A "look" activation calls the services in the order gesture
    processing, pertinence mapping, Monte Carlo, RRT*, each at most once
    and none after one was skipped; it publishes nothing, or one path
    followed by one turn command, and never the enable flag; and it leaves
    the enable flag, the stored poses, the cached landscapes, the
    workspace and the obstacle regions as they were. *)
Theorem X10_activation_shape (L : Libm) (srv : Services) (s : Store)
    (t : trace) :
  exists ev,
    out_trace (look L srv s t) = t ++ ev /\
    (exists rest,
        calls_made ev ++ rest = [Gesture; Pertinence; MonteCarlo; RrtStar]) /\
    (filter is_publish ev = [] \/
     exists p v, filter is_publish ev = [PubPath p; PubTurn v]) /\
    enable_publishes ev = [] /\
    (let s' := out_store (look L srv s t) in
     enable s' = enable s /\ robot s' = robot s /\ obs s' = obs s /\
     gesture s' = gesture s /\ matrices s' = matrices s /\
     WS (srv_rrts_request s') = WS (srv_rrts_request s) /\
     Obstacles (srv_rrts_request s') = Obstacles (srv_rrts_request s)).
Proof.
  rewrite look_frame. flat s. run_prog.
  all: eexists; split; [reflexivity|].
  all: cbn [calls_made filter is_publish enable_publishes].
  all: split; [eexists; reflexivity|].
  all: split; [first [left; reflexivity | right; eexists; eexists; reflexivity]|].
  all: split; [reflexivity|]. all: repeat split; reflexivity.
Qed.

(** ** The display grids *)

Lemma nth_map_seq {A : Type} (f : nat -> A) (n i : nat) (d : A) :
  (i < n)%nat -> nth i (map f (seq 0 n)) d = f i.
Proof.
  intros Hi.
  rewrite (nth_indep _ d (f 0%nat)) by (rewrite length_map, length_seq; exact Hi).
  rewrite (map_nth f (seq 0 n) 0%nat i), seq_nth by exact Hi. reflexivity.
Qed.

Lemma row_major_cell (value : Z -> float) (base : Z) (r c : nat) :
  (r < RES)%nat -> (c < RES)%nat ->
  nth c (nth r (row_major value base) []) None =
  Some (value (base + Z.of_nat r * Z.of_nat RES + Z.of_nat c)).
Proof.
  intros Hr Hc. unfold row_major.
  rewrite (nth_map_seq _ _ _ _ Hr), (nth_map_seq _ _ _ _ Hc). reflexivity.
Qed.

Lemma fill_spmats_with_rows (value : Z -> float) :
  fill_spmats_with value =
  Some {| spmat0 := row_major value 0;
          spmat1 := row_major value 1600;
          spmat2 := row_major value 3200;
          spmat3 := row_major value 4800;
          spmat4 := row_major value 6400 |}.
Proof. vm_compute. reflexivity. Qed.

Lemma fill_pertmatrix_with_rows (value : Z -> float) :
  fill_pertmatrix_with value = Some (row_major value 0).
Proof. vm_compute. reflexivity. Qed.

(** X8. The start-up loop that fills the five display grids never writes
    outside a grid and writes every cell: whatever the landscapes, cell
    (r, c) of grid k ends up holding cell k*RES*RES + r*RES + c of the
    landscapes, times 255, as a float. *)
Theorem X8_spmats_filled (cells : list double) (k r c : nat) :
  (k < NZ)%nat -> (r < RES)%nat -> (c < RES)%nat ->
  exists p,
    fill_spmats cells = Some p /\
    nth c (nth r (nth k [spmat0 p; spmat1 p; spmat2 p; spmat3 p; spmat4 p] [])
                 []) None =
    Some (to_float (mul (nth (k * (RES * RES) + r * RES + c) cells zero)
                        (of_int 255))).
Proof.
  intros Hk Hr Hc. eexists. split; [apply fill_spmats_with_rows|].
  cbn [spmat0 spmat1 spmat2 spmat3 spmat4].
  assert (Hv : forall (b : nat) (bz : Z),
             bz = Z.of_nat b ->
             Some (plot_value cells (bz + Z.of_nat r * Z.of_nat RES + Z.of_nat c))
             = Some (to_float (mul (nth (b + r * RES + c) cells zero)
                                   (of_int 255)))).
  { intros b bz ->. unfold plot_value. f_equal. f_equal. f_equal. f_equal. lia. }
  unfold NZ in Hk.
  destruct k as [|[|[|[|[|k]]]]]; try lia; cbn [nth];
    rewrite (row_major_cell _ _ _ _ Hr Hc); apply Hv; reflexivity.
Qed.

(** X9. The loop that fills the display grid of the fused landscape never
    writes outside it and writes every cell: cell (r, c) ends up holding
    cell r*RES + c of the answer, times 255, as a float. *)
Theorem X9_pertmatrix_filled (response : list double) (r c : nat) :
  (r < RES)%nat -> (c < RES)%nat ->
  exists g,
    fill_pertmatrix response = Some g /\
    length g = RES /\
    nth c (nth r g []) None =
    Some (to_float (mul (nth (r * RES + c) response zero) (of_int 255))).
Proof.
  intros Hr Hc. eexists. split; [apply fill_pertmatrix_with_rows|].
  split; [unfold row_major; rewrite length_map, length_seq; reflexivity|].
  rewrite (row_major_cell _ _ _ _ Hr Hc). unfold plot_value.
  f_equal. f_equal. f_equal. f_equal. lia.
Qed.

(** ** More worked examples *)

(** After a "look" that went through, idle turns do nothing. *)
Lemma X2_command_acted_on_once_witness :
  let srv := look_services (point2d (of_int 100) zero) in
  let s := look_store zero_pose2d in
  exit_code (tick libm_zero srv s []) = None /\
  forall (idle : list Services) (t' : trace),
    loop libm_zero (map (fun srv' => (srv', [])) idle)
         (out_store (tick libm_zero srv s [])) t' =
    Exit 0 (out_store (tick libm_zero srv s [])) t'.
Proof.
  intros srv s.
  assert (Hx : exit_code (tick libm_zero srv s []) = None) by reflexivity.
  split; [exact Hx|].
  exact (proj2 (proj2 (X2_command_acted_on_once libm_zero srv s [] Hx))).
Defined.

(** A spatial reasoner answering 8000 cells 0.5, then one "look". *)
Lemma X4_landscape_cache_witness :
  let srv := look_services (point2d (of_int 100) zero) in
  let turns := [(srv, [MCommand 1]); (srv, [])] in
  let response := repeat dhalf (NZ * RES * RES) in
  spat_services zero_pose2d obsdim = Some response /\
  length response = (NZ * RES * RES)%nat /\
  pert_requests (out_trace (main libm_zero spat_services turns)) <> [] /\
  Forall (fun mats => mats = response)
         (pert_requests (out_trace (main libm_zero spat_services turns))).
Proof.
  intros srv turns response.
  assert (Hlen : length response = (NZ * RES * RES)%nat) by apply repeat_length.
  split; [reflexivity|]. split; [exact Hlen|].
  split; [vm_compute; discriminate|].
  exact (proj2 (proj2 (proj2 (X4_landscape_cache libm_zero spat_services turns
                                response eq_refl)) Hlen)).
Defined.

(** The services of [look_services] on the store after "look". *)
Lemma X6_look_goes_through_witness :
  let g := point2d (of_int 100) zero in
  let srv := look_services g in
  let s := look_store zero_pose2d in
  let tgt := point2d zero zero in
  let land := repeat dhalf (RES * RES) in
  (cli_gest srv (gesture s) = Some tgt /\ target_accepted tgt = true /\
   cli_pert srv tgt (copy_cells (RES * RES * NZ) (matrices s)) = Some land /\
   isfinite (nth 0 land zero) = true /\
   cli_mont srv tgt (copy_cells (RES * RES) land) = Some g /\
   out_of_bounds g = false /\
   cli_rrts srv (planner_request s g) = Some []) /\
  exists s',
    look libm_zero srv s [] =
      Ret tt s'
        ([] ++ [SetState 0; CallGest (gesture s) true; SetState 1;
                CallPert tgt (copy_cells (RES * RES * NZ) (matrices s)) true;
                SetState 2;
                CallMont tgt (copy_cells (RES * RES) land) true;
                SetState 3;
                CallRrts (planner_request s g) true;
                PubPath []; SetState 4;
                PubTurn (dtheta_double libm_zero g (robot s))]) /\
    target s' = tgt /\ landscape s' = copy_cells (RES * RES) land /\
    goal s' = g /\ rrtPath s' = [] /\
    cmd_turn s' = dtheta_double libm_zero g (robot s) /\
    srv_rrts_request s' = planner_request s g /\
    state s' = 4 /\ cmd s' = 0 /\
    (enable s' = enable s /\ robot s' = robot s /\ obs s' = obs s /\
     gesture s' = gesture s /\ matrices s' = matrices s).
Proof.
  intros g srv s tgt land.
  split; [repeat split; reflexivity|].
  exact (X6_look_goes_through libm_zero srv s [] tgt land g []
           eq_refl eq_refl eq_refl eq_refl eq_refl eq_refl eq_refl).
Defined.

(** The goal (+infinity, 0) is rejected. *)
Lemma X7_goal_check_witness :
  let g := point2d (S754_infinity false) zero in
  let srv := answering None None (Some g) None in
  cli_mont srv (target initial_store)
           (copy_cells (RES * RES) (landscape initial_store)) = Some g /\
  wf (x g) /\ wf (y g) /\
  state (out_store (look_montecarlo srv initial_store [])) = 0.
Proof.
  intros g srv.
  split; [reflexivity|]. split; [reflexivity|]. split; [reflexivity|].
  exact (proj1 (proj2 (proj2 (X7_goal_check srv initial_store [] g
                                eq_refl eq_refl eq_refl)))
           eq_refl eq_refl).
Defined.

(** The last cell of the last grid. *)
Lemma X8_spmats_filled_witness :
  let cells := repeat dhalf (NZ * RES * RES) in
  (4 < NZ)%nat /\ (39 < RES)%nat /\ (39 < RES)%nat /\
  exists p,
    fill_spmats cells = Some p /\
    nth 39 (nth 39 (nth 4 [spmat0 p; spmat1 p; spmat2 p; spmat3 p; spmat4 p] [])
                   []) None =
    Some (to_float (mul (nth (4 * (RES * RES) + 39 * RES + 39) cells zero)
                        (of_int 255))).
Proof.
  intros cells.
  assert (Hk : (4 < NZ)%nat) by (unfold NZ; lia).
  assert (Hr : (39 < RES)%nat) by (unfold RES; lia).
  split; [exact Hk|]. split; [exact Hr|]. split; [exact Hr|].
  exact (X8_spmats_filled cells 4 39 39 Hk Hr Hr).
Defined.

Lemma X9_pertmatrix_filled_witness :
  let response := repeat dhalf (RES * RES) in
  (0 < RES)%nat /\ (39 < RES)%nat /\
  exists g,
    fill_pertmatrix response = Some g /\
    length g = RES /\
    nth 39 (nth 0 g []) None =
    Some (to_float (mul (nth (0 * RES + 39) response zero) (of_int 255))).
Proof.
  intros response.
  assert (H0 : (0 < RES)%nat) by (unfold RES; lia).
  assert (Hc : (39 < RES)%nat) by (unfold RES; lia).
  split; [exact H0|]. split; [exact Hc|].
  exact (X9_pertmatrix_filled response 0 39 H0 Hc).
Defined.

(** ** Checks that fail, through a whole activation *)

(** A goal with a NaN coordinate is not valid, and passes the bound test. *)
Lemma nan_fails_policy (g : Pose2D) : x g = NaN -> ~ valid_point g.
Proof.
  intros Hx Hv. apply valid_point_not_nan in Hv as [Nx _].
  rewrite Hx in Nx. discriminate Nx.
Qed.

Lemma nan_passes_bound_test (g : Pose2D) :
  x g = NaN -> out_of_range VSIZE (y g) = false -> out_of_bounds g = false.
Proof.
  intros Hx Hy. unfold out_of_bounds. rewrite Hx, out_of_range_nan, Hy. reflexivity.
Qed.

(** The activation that goes through, as the code evaluates its checks. *)
Lemma look_run (L : Libm) (srv : Services) (s : Store)
    (t : trace) (tgt : Pose2D) (land : list double) (g : Pose2D)
    (path : list Vector3) :
  cli_gest srv (gesture s) = Some tgt ->
  target_accepted tgt = true ->
  cli_pert srv tgt (copy_cells (RES * RES * NZ) (matrices s)) = Some land ->
  isfinite (nth 0 land zero) = true ->
  cli_mont srv tgt (copy_cells (RES * RES) land) = Some g ->
  out_of_bounds g = false ->
  cli_rrts srv (planner_request s g) = Some path ->
  exists s',
    look L srv s t =
      Ret tt s'
        (t ++ [SetState 0; CallGest (gesture s) true; SetState 1;
               CallPert tgt (copy_cells (RES * RES * NZ) (matrices s)) true;
               SetState 2;
               CallMont tgt (copy_cells (RES * RES) land) true;
               SetState 3;
               CallRrts (planner_request s g) true;
               PubPath path; SetState 4;
               PubTurn (dtheta_double L g (robot s))]) /\
    goal s' = g /\ state s' = 4 /\ cmd s' = 0.
Proof.
  intros Hg Ha Hp Hf Hm Hb Hr.
  unfold target_accepted in Ha. apply andb_true_iff in Ha as [Hfin Hin].
  apply negb_true_iff in Hin.
  rewrite look_frame. flat s. unfold planner_request in *. unfold_prog.
  rewrite Hg. unfold_prog. rewrite Hfin. unfold_prog. rewrite Hin.
  unfold_prog. store_simpl. rewrite Hp. unfold_prog.
  change (nth 0 (copy_cells (RES * RES) land) zero) with (nth 0 land zero).
  rewrite Hf. unfold_prog. store_simpl.
  rewrite copy_cells_idem, Hm. unfold_prog. rewrite Hb. unfold_prog.
  store_simpl. rewrite Hr. unfold_prog. store_simpl.
  rewrite copy_points_id.
  eexists. split; [reflexivity|]. repeat split; reflexivity.
Qed.

(** C3 (what the code does with a NaN goal). A goal whose [x] is NaN and
    whose [y] passes the bound test fails the validity check of the
    specification, and yet the activation does not reset the pipeline
    state to Idle: right after the Monte Carlo answer the state advances
    from LandscapeValid (2) to GoalValid (3), the planner is called with
    this goal, and the history of the activation is 0, 1, 2, 3, 4. The
    goal check tests the bounds only, and every comparison with NaN is
    false. *)
Theorem C3_invalid_goal_advances (L : Libm) (srv : Services) (s : Store)
    (t : trace) (tgt : Pose2D) (land : list double) (g : Pose2D)
    (path : list Vector3) :
  cli_gest srv (gesture s) = Some tgt ->
  target_accepted tgt = true ->
  cli_pert srv tgt (copy_cells (RES * RES * NZ) (matrices s)) = Some land ->
  isfinite (nth 0 land zero) = true ->
  cli_mont srv tgt (copy_cells (RES * RES) land) = Some g ->
  x g = NaN -> out_of_range VSIZE (y g) = false ->
  cli_rrts srv (planner_request s g) = Some path ->
  ~ valid_point g /\
  exists ev,
    out_trace (look L srv s t) = t ++ ev /\
    ev = [SetState 0; CallGest (gesture s) true; SetState 1;
          CallPert tgt (copy_cells (RES * RES * NZ) (matrices s)) true;
          SetState 2;
          CallMont tgt (copy_cells (RES * RES) land) true;
          SetState 3;
          CallRrts (planner_request s g) true;
          PubPath path; SetState 4;
          PubTurn (dtheta_double L g (robot s))] /\
    state_history ev = [0; 1; 2; 3; 4] /\
    state (out_store (look L srv s t)) = 4.
Proof.
  intros Hg Ha Hp Hf Hm Hx Hy Hr. split; [exact (nan_fails_policy g Hx)|].
  destruct (look_run L srv s t tgt land g path Hg Ha Hp Hf Hm
              (nan_passes_bound_test g Hx Hy) Hr) as (s' & Hrun & _ & Hst & _).
  rewrite Hrun. cbn [out_trace out_store].
  eexists. split; [reflexivity|]. split; [reflexivity|].
  split; [reflexivity | exact Hst].
Qed.

(** C5 (what the code does with a NaN goal). An activation whose Monte
    Carlo stage answers a goal with [x] NaN ends with an invalid result,
    and yet it returns with the pipeline state at PathPublished (4), not
    Idle, having published the path and the turn command NaN; the command
    tag is cleared. *)
Theorem C5_invalid_goal_not_reset (L : Libm) (srv : Services) (s : Store)
    (t : trace) (tgt : Pose2D) (land : list double) (g : Pose2D)
    (path : list Vector3) :
  cmd s = 1 ->
  cli_gest srv (gesture s) = Some tgt ->
  target_accepted tgt = true ->
  cli_pert srv tgt (copy_cells (RES * RES * NZ) (matrices s)) = Some land ->
  isfinite (nth 0 land zero) = true ->
  cli_mont srv tgt (copy_cells (RES * RES) land) = Some g ->
  x g = NaN -> out_of_range VSIZE (y g) = false ->
  cli_rrts srv (planner_request s g) = Some path ->
  ~ valid_point g /\
  exists s' ev,
    tick L srv s t = Ret tt s' (t ++ ev) /\
    goal s' = g /\
    state s' = 4 /\ state s' <> 0 /\ cmd s' = 0 /\
    filter is_publish ev = [PubPath path; PubTurn NaN].
Proof.
  intros Hc Hg Ha Hp Hf Hm Hx Hy Hr. split; [exact (nan_fails_policy g Hx)|].
  destruct (look_run L srv s t tgt land g path Hg Ha Hp Hf Hm
              (nan_passes_bound_test g Hx Hy) Hr) as (s' & Hrun & Hgl & Hst & Hcmd).
  rewrite (tick_look L srv s t Hc), Hrun.
  rewrite (dtheta_double_nan L g (robot s))
    by (left; rewrite Hx; reflexivity).
  exists s'. eexists. split; [reflexivity|].
  split; [exact Hgl|]. split; [exact Hst|].
  split; [rewrite Hst; discriminate|]. split; [exact Hcmd | reflexivity].
Qed.

(** The three checks of the code, failing in turn: the state is left at 0,
    the tag cleared, and no later stage runs. *)
Lemma look_target_rejected (L : Libm) (srv : Services) (s : Store) (t : trace)
    (tgt : Pose2D) :
  cli_gest srv (gesture s) = Some tgt ->
  target_accepted tgt = false ->
  exists s',
    look L srv s t =
      Ret tt s'
        (t ++ SetState 0 :: CallGest (gesture s) true ::
           (if isfinite (x tgt) && isfinite (y tgt) then [SetState 1] else []) ++
           (if out_of_bounds tgt then [SetState 0] else [])) /\
    state s' = 0 /\ cmd s' = 0.
Proof.
  intros Hg Hbad. unfold target_accepted in Hbad.
  rewrite look_frame. flat s. unfold_prog. rewrite Hg. unfold_prog.
  destruct (isfinite (x tgt) && isfinite (y tgt)), (out_of_bounds tgt);
    try discriminate; store_simpl;
    eexists; (split; [reflexivity|]); split; reflexivity.
Qed.

Lemma look_landscape_rejected (L : Libm) (srv : Services) (s : Store)
    (t : trace) (tgt : Pose2D) (land : list double) :
  cli_gest srv (gesture s) = Some tgt ->
  target_accepted tgt = true ->
  cli_pert srv tgt (copy_cells (RES * RES * NZ) (matrices s)) = Some land ->
  isfinite (nth 0 land zero) = false ->
  exists s',
    look L srv s t =
      Ret tt s'
        (t ++ [SetState 0; CallGest (gesture s) true; SetState 1;
               CallPert tgt (copy_cells (RES * RES * NZ) (matrices s)) true;
               SetState 0]) /\
    state s' = 0 /\ cmd s' = 0.
Proof.
  intros Hg Ha Hp Hf.
  unfold target_accepted in Ha. apply andb_true_iff in Ha as [Hfin Hin].
  apply negb_true_iff in Hin.
  rewrite look_frame. flat s. unfold_prog.
  rewrite Hg. unfold_prog. rewrite Hfin. unfold_prog. rewrite Hin.
  unfold_prog. store_simpl. rewrite Hp. unfold_prog.
  change (nth 0 (copy_cells (RES * RES) land) zero) with (nth 0 land zero).
  rewrite Hf. unfold_prog. store_simpl.
  eexists. split; [reflexivity|]. split; reflexivity.
Qed.

Lemma look_goal_rejected (L : Libm) (srv : Services) (s : Store)
    (t : trace) (tgt : Pose2D) (land : list double) (g : Pose2D) :
  cli_gest srv (gesture s) = Some tgt ->
  target_accepted tgt = true ->
  cli_pert srv tgt (copy_cells (RES * RES * NZ) (matrices s)) = Some land ->
  isfinite (nth 0 land zero) = true ->
  cli_mont srv tgt (copy_cells (RES * RES) land) = Some g ->
  out_of_bounds g = true ->
  exists s',
    look L srv s t =
      Ret tt s'
        (t ++ [SetState 0; CallGest (gesture s) true; SetState 1;
               CallPert tgt (copy_cells (RES * RES * NZ) (matrices s)) true;
               SetState 2;
               CallMont tgt (copy_cells (RES * RES) land) true;
               SetState 0]) /\
    state s' = 0 /\ cmd s' = 0.
Proof.
  intros Hg Ha Hp Hf Hm Hb.
  unfold target_accepted in Ha. apply andb_true_iff in Ha as [Hfin Hin].
  apply negb_true_iff in Hin.
  rewrite look_frame. flat s. unfold_prog.
  rewrite Hg. unfold_prog. rewrite Hfin. unfold_prog. rewrite Hin.
  unfold_prog. store_simpl. rewrite Hp. unfold_prog.
  change (nth 0 (copy_cells (RES * RES) land) zero) with (nth 0 land zero).
  rewrite Hf. unfold_prog. store_simpl.
  rewrite copy_cells_idem, Hm. unfold_prog. rewrite Hb. unfold_prog.
  store_simpl.
  eexists. split; [reflexivity|]. split; reflexivity.
Qed.

(** A goal that is not valid and has no NaN coordinate fails the bound
    test. *)
Lemma invalid_goal_out_of_bounds (g : Pose2D) :
  wf (x g) -> wf (y g) -> is_nan (x g) = false -> is_nan (y g) = false ->
  ~ valid_point g -> out_of_bounds g = true.
Proof.
  intros Wx Wy Nx Ny Hbad.
  destruct (out_of_bounds g) eqn:Hb; [reflexivity|].
  exfalso. apply Hbad.
  destruct (proj1 (in_bounds_cases g Wx Wy) Hb) as [[C | [Fx Bx]] [C' | [Fy By]]];
    try congruence.
  split; [|split; [|split]]; assumption.
Qed.

Lemma calls_made_flags (a b : list event) :
  calls_made (a ++ b) = calls_made a ++ calls_made b.
Proof.
  induction a as [|e a IH]; [reflexivity|].
  destruct e; cbn [app calls_made]; rewrite IH; reflexivity.
Qed.

Lemma state_history_app (a b : list event) :
  state_history (a ++ b) = state_history a ++ state_history b.
Proof.
  induction a as [|e a IH]; [reflexivity|].
  destruct e; cbn [app state_history]; rewrite IH; reflexivity.
Qed.

(** X11. In every "look" activation the assignments to the pipeline state
    start with 0, each one advances by exactly one stage or resets to 0,
    and 4 is reached only through 0, 1, 2, 3, 4 with every service having
    answered and every check of the code passed. A target that is not
    valid, a landscape whose first cell is not finite, and a goal that is
    not valid and has no NaN coordinate each leave the state at 0: no
    later service is called and nothing is published. *)
Theorem X11_pipeline_steps (L : Libm) (srv : Services) (s : Store) (t : trace) :
  exists ev,
    out_trace (look L srv s t) = t ++ ev /\
    (exists h, state_history ev = 0 :: h /\ stepwise 0 h = true) /\
    state (out_store (look L srv s t)) = last (state_history ev) 0 /\
    (In 4 (state_history ev) ->
     state_history ev = [0; 1; 2; 3; 4] /\
     exists tgt mats land lreq g req path,
       ev = [SetState 0; CallGest (gesture s) true; SetState 1;
             CallPert tgt mats true; SetState 2;
             CallMont tgt lreq true; SetState 3;
             CallRrts req true; PubPath path; SetState 4;
             PubTurn (dtheta_double L g (robot s))] /\
       cli_gest srv (gesture s) = Some tgt /\
       target_accepted tgt = true /\
       cli_pert srv tgt mats = Some land /\
       isfinite (nth 0 land zero) = true /\
       cli_mont srv tgt lreq = Some g /\
       out_of_bounds g = false /\
       cli_rrts srv req = Some path) /\
    (forall tgt,
        cli_gest srv (gesture s) = Some tgt ->
        wf (x tgt) -> wf (y tgt) -> ~ valid_point tgt ->
        exit_code (look L srv s t) = None /\
        state (out_store (look L srv s t)) = 0 /\
        calls_made ev = [Gesture] /\ filter is_publish ev = []) /\
    (forall tgt land,
        cli_gest srv (gesture s) = Some tgt ->
        target_accepted tgt = true ->
        cli_pert srv tgt (copy_cells (RES * RES * NZ) (matrices s)) = Some land ->
        isfinite (nth 0 land zero) = false ->
        exit_code (look L srv s t) = None /\
        state (out_store (look L srv s t)) = 0 /\
        state_history ev = [0; 1; 0] /\
        calls_made ev = [Gesture; Pertinence] /\ filter is_publish ev = []) /\
    (forall tgt land g,
        cli_gest srv (gesture s) = Some tgt ->
        target_accepted tgt = true ->
        cli_pert srv tgt (copy_cells (RES * RES * NZ) (matrices s)) = Some land ->
        isfinite (nth 0 land zero) = true ->
        cli_mont srv tgt (copy_cells (RES * RES) land) = Some g ->
        wf (x g) -> wf (y g) -> is_nan (x g) = false -> is_nan (y g) = false ->
        ~ valid_point g ->
        exit_code (look L srv s t) = None /\
        state (out_store (look L srv s t)) = 0 /\
        state_history ev = [0; 1; 2; 0] /\
        calls_made ev = [Gesture; Pertinence; MonteCarlo] /\
        filter is_publish ev = []).
Proof.
  destruct (pipeline_history L srv s t) as (ev & Hev & Hh & Hlast & H4).
  exists ev. split; [exact Hev|]. split; [exact Hh|]. split; [exact Hlast|].
  split; [exact H4|]. split; [|split].
  - intros tgt Hg Wx Wy Hbad.
    apply (valid_point_dec tgt Wx Wy) in Hbad.
    destruct (look_target_rejected L srv s t tgt Hg Hbad) as (s' & Hrun & Hst & _).
    rewrite Hrun in *. cbn [out_trace out_store exit_code] in *.
    apply app_inv_head in Hev. subst ev.
    split; [reflexivity|]. split; [exact Hst|].
    destruct (isfinite (x tgt) && isfinite (y tgt)), (out_of_bounds tgt);
      split; reflexivity.
  - intros tgt land Hg Ha Hp Hf.
    destruct (look_landscape_rejected L srv s t tgt land Hg Ha Hp Hf)
      as (s' & Hrun & Hst & _).
    rewrite Hrun in *. cbn [out_trace out_store exit_code] in *.
    apply app_inv_head in Hev. subst ev.
    split; [reflexivity|]. split; [exact Hst|]. repeat split; reflexivity.
  - intros tgt land g Hg Ha Hp Hf Hm Wx Wy Nx Ny Hbad.
    pose proof (invalid_goal_out_of_bounds g Wx Wy Nx Ny Hbad) as Hb.
    destruct (look_goal_rejected L srv s t tgt land g Hg Ha Hp Hf Hm Hb)
      as (s' & Hrun & Hst & _).
    rewrite Hrun in *. cbn [out_trace out_store exit_code] in *.
    apply app_inv_head in Hev. subst ev.
    split; [reflexivity|]. split; [exact Hst|]. repeat split; reflexivity.
Qed.

(** The goal (NaN, 0) in a whole activation. *)
Lemma C3_invalid_goal_advances_witness :
  let tgt := point2d zero zero in
  let land := repeat dhalf (RES * RES) in
  let g := point2d NaN zero in
  let srv := look_services g in
  let s := look_store zero_pose2d in
  (cli_gest srv (gesture s) = Some tgt /\
   target_accepted tgt = true /\
   cli_pert srv tgt (copy_cells (RES * RES * NZ) (matrices s)) = Some land /\
   isfinite (nth 0 land zero) = true /\
   cli_mont srv tgt (copy_cells (RES * RES) land) = Some g /\
   x g = NaN /\ out_of_range VSIZE (y g) = false /\
   cli_rrts srv (planner_request s g) = Some []) /\
  ~ valid_point g /\
  exists ev,
    out_trace (look libm_zero srv s []) = [] ++ ev /\
    ev = [SetState 0; CallGest (gesture s) true; SetState 1;
          CallPert tgt (copy_cells (RES * RES * NZ) (matrices s)) true;
          SetState 2;
          CallMont tgt (copy_cells (RES * RES) land) true;
          SetState 3;
          CallRrts (planner_request s g) true;
          PubPath []; SetState 4;
          PubTurn (dtheta_double libm_zero g (robot s))] /\
    state_history ev = [0; 1; 2; 3; 4] /\
    state (out_store (look libm_zero srv s [])) = 4.
Proof.
  intros tgt land g srv s.
  split; [repeat split; reflexivity|].
  exact (C3_invalid_goal_advances libm_zero srv s [] tgt land g []
           eq_refl eq_refl eq_refl eq_refl eq_refl eq_refl eq_refl eq_refl).
Defined.

(** The same activation seen from the loop: state 4 and two publishes. *)
Lemma C5_invalid_goal_not_reset_witness :
  let tgt := point2d zero zero in
  let land := repeat dhalf (RES * RES) in
  let g := point2d NaN zero in
  let srv := look_services g in
  let s := look_store zero_pose2d in
  (cmd s = 1 /\
   cli_gest srv (gesture s) = Some tgt /\
   target_accepted tgt = true /\
   cli_pert srv tgt (copy_cells (RES * RES * NZ) (matrices s)) = Some land /\
   isfinite (nth 0 land zero) = true /\
   cli_mont srv tgt (copy_cells (RES * RES) land) = Some g /\
   x g = NaN /\ out_of_range VSIZE (y g) = false /\
   cli_rrts srv (planner_request s g) = Some []) /\
  ~ valid_point g /\
  exists s' ev,
    tick libm_zero srv s [] = Ret tt s' ([] ++ ev) /\
    goal s' = g /\
    state s' = 4 /\ state s' <> 0 /\ cmd s' = 0 /\
    filter is_publish ev = [PubPath []; PubTurn NaN].
Proof.
  intros tgt land g srv s.
  split; [repeat split; reflexivity|].
  exact (C5_invalid_goal_not_reset libm_zero srv s [] tgt land g []
           eq_refl eq_refl eq_refl eq_refl eq_refl eq_refl eq_refl eq_refl eq_refl).
Defined.

(** A goal outside the workspace: (1000, 0). *)
Lemma X11_pipeline_steps_witness :
  let tgt := point2d zero zero in
  let land := repeat dhalf (RES * RES) in
  let g := point2d (of_int 1000) zero in
  let srv := look_services g in
  let s := look_store zero_pose2d in
  ~ valid_point g /\
  state (out_store (look libm_zero srv s [])) = 0 /\
  state_history (out_trace (look libm_zero srv s [])) = [0; 1; 2; 0].
Proof.
  intros tgt land g srv s.
  assert (Hbad : ~ valid_point g).
  { intros Hv. apply (target_accepted_valid g eq_refl eq_refl) in Hv.
    discriminate Hv. }
  split; [exact Hbad|].
  destruct (X11_pipeline_steps libm_zero srv s []) as (ev & Hev & _ & _ & _ & _ & _ & Hgoal).
  destruct (Hgoal tgt land g eq_refl eq_refl eq_refl eq_refl eq_refl
              eq_refl eq_refl eq_refl eq_refl Hbad) as (_ & Hst & Hh & _).
  cbn [app] in Hev. rewrite Hev. split; [exact Hst | exact Hh].
Defined.
